(** * Keyword crawler and onion-link extractor: a shallow embedding

    The repository holds two scripts:
    - [pastebinkeywordcrawler/pastein.py] (class [PastebinCrawler]), modelled
      in [Module Pastebin];
    - [telegram/program.py] (class [TelegramOnionExtractor]), modelled in
      [Module Telegram].

    What the scripts take from the Python runtime is modelled first: text,
    [str.strip], [int], [str], the part of [re] that the two patterns use,
    [json.dumps], files, the clock and exceptions.

    Text is a Rocq [string]; a character stands for a code point below 256.
    The case-mapping of [str.lower] and the word class of the regular
    expression engine are tables of the interpreter, not of the repository:
    the crawler's matcher takes them as section variables, and the ASCII
    instances [ascii_lower] and [ascii_word] serve the examples. *)

From Stdlib Require Import ZArith Lia Bool List Ascii String.
From Stdlib Require Import DecimalString DecimalPos DecimalZ.
From stdpp Require Import base gmap strings list.
Import ListNotations.

Open Scope string_scope.

(** ** Characters and text *)

Definition code (c : ascii) : N := N_of_ascii c.

Definition in_range (lo hi : N) (c : ascii) : bool :=
  ((lo <=? code c) && (code c <=? hi))%N.

Definition is_digit (c : ascii) : bool := in_range 48 57 c.
Definition is_ascii_upper (c : ascii) : bool := in_range 65 90 c.
Definition is_ascii_lower (c : ascii) : bool := in_range 97 122 c.

Definition ascii_lower_char (c : ascii) : ascii :=
  if is_ascii_upper c then ascii_of_N (code c + 32) else c.

Definition ascii_upper_char (c : ascii) : ascii :=
  if is_ascii_lower c then ascii_of_N (code c - 32) else c.

(** [str.lower] on ASCII text. *)
Fixpoint ascii_lower (s : string) : string :=
  match s with
  | EmptyString => EmptyString
  | String c s' => String (ascii_lower_char c) (ascii_lower s')
  end.

(** The class [\w] on ASCII text: letters, digits and the underscore. *)
Definition ascii_word (c : ascii) : bool :=
  is_ascii_lower c || is_ascii_upper c || is_digit c || (code c =? 95)%N.

(** [str.isspace] for one character: TAB, LF, VT, FF, CR, the separators
    0x1c to 0x1f, the space, NEL and the no-break space. *)
Definition isspace (c : ascii) : bool :=
  in_range 9 13 c || in_range 28 32 c || (code c =? 133)%N || (code c =? 160)%N.

Definition is_empty (s : string) : bool :=
  match s with EmptyString => true | String _ _ => false end.

Fixpoint lstrip (s : string) : string :=
  match s with
  | EmptyString => EmptyString
  | String c s' => if isspace c then lstrip s' else s
  end.

Fixpoint rstrip (s : string) : string :=
  match s with
  | EmptyString => EmptyString
  | String c s' =>
      let r := rstrip s' in
      if isspace c && is_empty r then EmptyString else String c r
  end.

(** [s.strip()] *)
Definition strip (s : string) : string := rstrip (lstrip s).

(** [s.lstrip(ch)] for a one-character argument. *)
Fixpoint lstrip_char (ch : ascii) (s : string) : string :=
  match s with
  | EmptyString => EmptyString
  | String c s' => if Ascii.eqb c ch then lstrip_char ch s' else s
  end.

(** [s.startswith(ch)] for a one-character argument. *)
Definition startswith_char (ch : ascii) (s : string) : bool :=
  match s with
  | EmptyString => false
  | String c _ => Ascii.eqb c ch
  end.

(** [k in s]: [k] occurs in [s] as a contiguous run of characters. *)
Fixpoint is_substring (k s : string) : bool :=
  String.prefix k s ||
  match s with
  | EmptyString => false
  | String _ s' => is_substring k s'
  end.

(** ** Exceptions *)

Inductive exn : Type :=
| OSError
| FileNotFoundError
| ValueError
| RequestException
| RPCError
| FloodWaitError (seconds : nat)
| AttributeError.

Inductive outcome (A : Type) : Type :=
| Ok (a : A)
| Raise (e : exn).

Arguments Ok {A} a.
Arguments Raise {A} e.

(** ** Integers and their decimal text *)

(** [str(n)] for an [int]: an optional minus sign and the decimal digits. *)
Definition str_of_int (n : Z) : string := NilZero.string_of_int (Z.to_int n).

Definition digit_of (c : ascii) (d : Decimal.uint) : option Decimal.uint :=
  if is_digit c then uint_of_char c (Some d) else None.

(** The digits of an integer literal as [int] reads them: decimal digits,
    with single underscores allowed between two digits. [after_digit] tells
    whether the previous character was a digit. *)
Fixpoint parse_digits (s : string) (after_digit : bool) : option Decimal.uint :=
  match s with
  | EmptyString => if after_digit then Some Decimal.Nil else None
  | String c s' =>
      if (code c =? 95)%N then
        if after_digit then parse_digits s' false else None
      else
        match parse_digits s' true with
        | Some d => digit_of c d
        | None => None
        end
  end.

(** [int(s)] for a string: blanks around the literal are dropped, a sign
    may come first, and anything else raises [ValueError]. *)
Definition int_of_str (s : string) : outcome Z :=
  let t := strip s in
  let '(negative, body) :=
    match t with
    | String "-" r => (true, r)
    | String "+" r => (false, r)
    | _ => (false, t)
    end in
  match parse_digits body false with
  | Some d => Ok (if negative then (- Z.of_uint d)%Z else Z.of_uint d)
  | None => Raise ValueError
  end.

(** ** Regular expressions

    The part of [re] that the two patterns of the repository use. A pattern
    is held in parsed form. Repetition is needed over character classes
    only. Matching is the backtracking search of the interpreter, written
    with a continuation for what follows in the pattern; the repetitions
    and the optional part are greedy. *)
Module Re.

Inductive regex : Type :=
| Eps                               (* the empty pattern *)
| Lit (c : ascii)                   (* one literal character *)
| Cls (p : ascii -> bool)           (* [...] *)
| Bnd                               (* \b *)
| Seq (r1 r2 : regex)               (* r1 r2 *)
| Opt (r : regex)                   (* r? *)
| Star (p : ascii -> bool)          (* [...]* *)
| Plus (p : ascii -> bool)          (* [...]+ *)
| Grp (n : nat) (r : regex).        (* ( r ), the n-th group *)

(** A literal string as a pattern. *)
Fixpoint lits (s : string) : regex :=
  match s with
  | EmptyString => Eps
  | String c s' => Seq (Lit c) (lits s')
  end.

(** [re.escape(s)]: the pattern that matches [s] and nothing else. *)
Definition escape (s : string) : regex := lits s.

(** What the groups have captured, latest first. *)
Definition groups : Type := list (nat * string).

(** The text of group [n]; a group that took no part in the match gives
    the empty string, as [findall] reports it. *)
Fixpoint group (n : nat) (g : groups) : string :=
  match g with
  | [] => EmptyString
  | (m, s) :: g' => if Nat.eqb m n then s else group n g'
  end.

(** The first [n] characters of [s]. *)
Fixpoint take (n : nat) (s : string) : string :=
  match n, s with
  | S n', String c s' => String c (take n' s')
  | _, _ => EmptyString
  end.

(** The part of [s] consumed when [s'] is what remains of it. *)
Definition consumed (s s' : string) : string :=
  take (String.length s - String.length s') s.

Section Matcher.

(** The class [\w] and the flag [re.IGNORECASE]. *)
Variable word : ascii -> bool.
Variable ignorecase : bool.

Definition lit_matches (c x : ascii) : bool :=
  if ignorecase
  then Ascii.eqb (ascii_lower_char c) (ascii_lower_char x)
  else Ascii.eqb c x.

Definition cls_matches (p : ascii -> bool) (x : ascii) : bool :=
  if ignorecase
  then p x || p (ascii_lower_char x) || p (ascii_upper_char x)
  else p x.

(** [\b] holds where exactly one of the two neighbours is a word
    character; the ends of the text count as non-word. *)
Definition at_boundary (prev : option ascii) (s : string) : bool :=
  xorb (match prev with Some c => word c | None => false end)
       (match s with String c _ => word c | EmptyString => false end).

Section Continuation.

Context {T : Type}.

Fixpoint star (p : ascii -> bool) (prev : option ascii) (s : string)
    (k : option ascii -> string -> option T) : option T :=
  match s with
  | String x s' =>
      if cls_matches p x then
        match star p (Some x) s' k with
        | Some t => Some t
        | None => k prev s
        end
      else k prev s
  | EmptyString => k prev s
  end.

Fixpoint rmatch (r : regex) (prev : option ascii) (s : string) (g : groups)
    (k : option ascii -> string -> groups -> option T) : option T :=
  match r with
  | Eps => k prev s g
  | Lit c =>
      match s with
      | String x s' => if lit_matches c x then k (Some x) s' g else None
      | EmptyString => None
      end
  | Cls p =>
      match s with
      | String x s' => if cls_matches p x then k (Some x) s' g else None
      | EmptyString => None
      end
  | Bnd => if at_boundary prev s then k prev s g else None
  | Seq r1 r2 =>
      rmatch r1 prev s g (fun prev' s' g' => rmatch r2 prev' s' g' k)
  | Opt r' =>
      match rmatch r' prev s g k with
      | Some t => Some t
      | None => k prev s g
      end
  | Star p => star p prev s (fun prev' s' => k prev' s' g)
  | Plus p =>
      match s with
      | String x s' =>
          if cls_matches p x
          then star p (Some x) s' (fun prev' s' => k prev' s' g)
          else None
      | EmptyString => None
      end
  | Grp n r' =>
      rmatch r' prev s g
        (fun prev' s' g' => k prev' s' ((n, consumed s s') :: g'))
  end.

End Continuation.

(** A match that starts at the current position: what remains of the text
    after it, and the groups. *)
Definition match_here (r : regex) (prev : option ascii) (s : string)
    : option (string * groups) :=
  rmatch r prev s [] (fun _ s' g => Some (s', g)).

(** [re.search]: the leftmost position at which the pattern matches. *)
Fixpoint search_from (r : regex) (prev : option ascii) (s : string)
    : option (string * groups) :=
  match match_here r prev s with
  | Some m => Some m
  | None =>
      match s with
      | String c s' => search_from r (Some c) s'
      | EmptyString => None
      end
  end.

Definition search (r : regex) (text : string) : option (string * groups) :=
  search_from r None text.

(** [findall]: the matches from left to right, none overlapping another.
    [skip] counts the characters that the last match still covers. The
    patterns of the repository match no empty string. *)
Fixpoint findall_from (r : regex) (prev : option ascii) (s : string)
    (skip : nat) : list groups :=
  match skip with
  | S n =>
      match s with
      | String c s' => findall_from r (Some c) s' n
      | EmptyString => []
      end
  | O =>
      match match_here r prev s with
      | Some (rest, g) =>
          g :: match s with
               | String c s' =>
                   findall_from r (Some c) s'
                     (String.length s - String.length rest - 1)
               | EmptyString => []
               end
      | None =>
          match s with
          | String c s' => findall_from r (Some c) s' 0
          | EmptyString => []
          end
      end
  end.

(** [pattern.findall(text)] for a pattern of three groups: one tuple of
    the three captured texts per match. *)
Definition findall3 (r : regex) (text : string)
    : list (string * string * string) :=
  List.map (fun g => (group 1 g, group 2 g, group 3 g))
           (findall_from r None text 0).

End Matcher.

End Re.

(** ** JSON text

    The values the two scripts serialise: dictionaries with string keys, in
    insertion order, whose values are strings and lists of strings.
    [json_dumps] follows [json.dumps] with its default separators and
    [ensure_ascii]. *)

Inductive jvalue : Type :=
| JStr (s : string)
| JList (items : list string).

(** A dictionary literal: its keys and values in the order written. *)
Definition jdict : Type := list (string * jvalue).

Definition newline : string := String (ascii_of_N 10) EmptyString.
Definition dquote : string := String (ascii_of_N 34) EmptyString.
Definition backslash : string := String (ascii_of_N 92) EmptyString.

Definition hex_digit (n : N) : string :=
  String (ascii_of_N (if (n <? 10)%N then 48 + n else 87 + n)) EmptyString.

Definition json_escape_char (c : ascii) : string :=
  let n := code c in
  if (n =? 34)%N then backslash ++ dquote
  else if (n =? 92)%N then backslash ++ backslash
  else if (n =? 10)%N then backslash ++ "n"
  else if (n =? 13)%N then backslash ++ "r"
  else if (n =? 9)%N then backslash ++ "t"
  else if (n =? 8)%N then backslash ++ "b"
  else if (n =? 12)%N then backslash ++ "f"
  else if ((n <? 32) || (126 <? n))%N
       then backslash ++ "u00" ++ hex_digit (n / 16) ++ hex_digit (n mod 16)
  else String c EmptyString.

Fixpoint json_escape (s : string) : string :=
  match s with
  | EmptyString => EmptyString
  | String c s' => json_escape_char c ++ json_escape s'
  end.

Definition json_string (s : string) : string :=
  dquote ++ json_escape s ++ dquote.

(** The members of a list or of a dictionary, [", "] between them. *)
Fixpoint json_join (l : list string) : string :=
  match l with
  | [] => EmptyString
  | x :: l' =>
      x ++ match l' with [] => EmptyString | _ :: _ => ", " ++ json_join l' end
  end.

Definition json_value (v : jvalue) : string :=
  match v with
  | JStr s => json_string s
  | JList items => "[" ++ json_join (List.map json_string items) ++ "]"
  end.

(** [json.dumps(d)] for a dictionary [d]. *)
Definition json_dumps (d : jdict) : string :=
  "{" ++
  json_join (List.map (fun kv => json_string (fst kv) ++ ": " ++ json_value (snd kv)) d)
  ++ "}".

(** ** Files, the clock and the monad of effects

    A path holds a regular file with its text, or something that exists and
    cannot be opened (a directory, a file without permission); a path that
    is not in the map does not exist. The clock gives the formatted UTC
    time of each reading in turn. *)

Inductive file : Type :=
| Regular (data : string)
| Denied.

Record world : Type := World {
  files : gmap string file;
  clock : nat -> string;
  ticks : nat
}.

Definition set_files (fs : gmap string file) (w : world) : world :=
  {| files := fs; clock := clock w; ticks := ticks w |}.

(** A computation runs in a world, ends with a value or an exception, and
    leaves a world: what was written before an exception stays written. *)
Definition io (A : Type) : Type := world -> outcome A * world.

Definition ret {A : Type} (a : A) : io A := fun w => (Ok a, w).

Definition raise {A : Type} (e : exn) : io A := fun w => (Raise e, w).

Definition bind {A B : Type} (m : io A) (f : A -> io B) : io B :=
  fun w =>
    match m w with
    | (Ok a, w') => f a w'
    | (Raise e, w') => (Raise e, w')
    end.

Notation "x <- c1 ;; c2" := (bind c1 (fun x => c2))
  (at level 100, c1 at next level, right associativity).
Notation "c1 ;; c2" := (bind c1 (fun _ => c2))
  (at level 100, right associativity).

(** [try: m  except Exception as e: h e] *)
Definition catch {A : Type} (m : io A) (h : exn -> io A) : io A :=
  fun w =>
    match m w with
    | (Ok a, w') => (Ok a, w')
    | (Raise e, w') => h e w'
    end.

(** [try: m  except E as e: h e] for the exceptions [e] of a class [E]. *)
Definition catch_only {A : Type} (is_E : exn -> bool) (m : io A)
    (h : exn -> io A) : io A :=
  fun w =>
    match m w with
    | (Ok a, w') => (Ok a, w')
    | (Raise e, w') => if is_E e then h e w' else (Raise e, w')
    end.

(** [try: m  finally: closing]: the closing part runs whatever [m] did,
    and an exception of its own takes the place of the outcome of [m]. *)
Definition finally {A : Type} (m : io A) (closing : io unit) : io A :=
  fun w =>
    match m w with
    | (r, w') =>
        match closing w' with
        | (Ok _, w'') => (r, w'')
        | (Raise e, w'') => (Raise e, w'')
        end
    end.

(** A pure result that may be an exception. *)
Definition lift {A : Type} (r : outcome A) : io A := fun w => (r, w).

(** [for x in l: f x] *)
Fixpoint for_each {A : Type} (f : A -> io unit) (l : list A) : io unit :=
  match l with
  | [] => ret tt
  | x :: l' => f x ;; for_each f l'
  end.

(** A loop that carries a local variable. *)
Fixpoint for_fold {A S : Type} (f : S -> A -> io S) (l : list A) (s : S) : io S :=
  match l with
  | [] => ret s
  | x :: l' => s' <- f s x ;; for_fold f l' s'
  end.

(** [map] with a function that has effects, the results in the order of
    the list. *)
Fixpoint map_io {A B : Type} (f : A -> io B) (l : list A) : io (list B) :=
  match l with
  | [] => ret []
  | x :: l' => y <- f x ;; ys <- map_io f l' ;; ret (y :: ys)
  end.

(** [os.path.exists(path)] *)
Definition path_exists (path : string) : io bool :=
  fun w => (Ok (bool_decide (is_Some (files w !! path))), w).

(** [open(path, 'r')] followed by [read()] *)
Definition read_text (path : string) : io string :=
  fun w =>
    match files w !! path with
    | Some (Regular data) => (Ok data, w)
    | Some Denied => (Raise OSError, w)
    | None => (Raise FileNotFoundError, w)
    end.

(** [open(path, 'w')]: the file is created or cut to length zero at once. *)
Definition open_w (path : string) : io unit :=
  fun w =>
    match files w !! path with
    | Some Denied => (Raise OSError, w)
    | _ => (Ok tt, set_files (<[path := Regular EmptyString]> (files w)) w)
    end.

(** [open(path, 'a')]: the file is created when it is missing and its
    text is kept. *)
Definition open_a (path : string) : io unit :=
  fun w =>
    match files w !! path with
    | Some Denied => (Raise OSError, w)
    | Some (Regular _) => (Ok tt, w)
    | None => (Ok tt, set_files (<[path := Regular EmptyString]> (files w)) w)
    end.

(** [f.write(data)] and the closing of [f], for a file opened for writing
    or appending at [path]: the data goes after what the file holds. *)
Definition write_end (path : string) (data : string) : io unit :=
  fun w =>
    match files w !! path with
    | Some (Regular old) =>
        (Ok tt, set_files (<[path := Regular (old ++ data)]> (files w)) w)
    | _ => (Raise OSError, w)
    end.

(** [datetime.utcnow().strftime("%Y-%m-%dT%H:%M:%SZ")] *)
Definition utcnow : io string :=
  fun w =>
    (Ok (clock w (ticks w)),
     {| files := files w; clock := clock w; ticks := S (ticks w) |}).

(** * The Pastebin keyword crawler ([pastein.py]) *)
Module Pastebin.

Record PastebinCrawler : Type := {
  keywords : list string;
  output_file : string
}.

Definition archive_url : string := "https://pastebin.com/archive".

(** [self.raw_paste_url.format(paste_id)] *)
Definition raw_paste_url (paste_id : string) : string :=
  "https://pastebin.com/raw/" ++ paste_id.

Definition default_keywords : list string :=
  ["crypto"; "bitcoin"; "ethereum"; "blockchain"; "t.me";
   "btc"; "eth"; "nft"; "defi"; "wallet"; "binance"; "coinbase"].

(** [__init__]: [keywords or [...]] takes the default list for [None] and
    for the empty list. The directory of the output file is not modelled. *)
Definition init (keywords : option (list string)) (output_file : string)
    : PastebinCrawler :=
  {| keywords := match keywords with
                 | Some (k :: ks) => k :: ks
                 | _ => default_keywords
                 end;
     output_file := output_file |}.

(** What the site answers: for the archive page, the [href] attributes of
    the links that the selector finds, each possibly missing; for a paste,
    its raw text. A request may raise instead. *)
Record Site : Type := {
  archive : outcome (list (option string));
  raw : string -> outcome string
}.

Definition is_request_exception (e : exn) : bool :=
  match e with RequestException => true | _ => false end.

Definition get_archive_paste_ids (site : Site) : io (list string) :=
  catch_only is_request_exception
    (paste_links <- lift (archive site) ;;
     ret (fold_left
            (fun paste_ids href =>
               match href with
               | Some h =>
                   if negb (is_empty h) && startswith_char "/" h
                   then (paste_ids ++ [lstrip_char "/" h])%list
                   else paste_ids
               | None => paste_ids
               end)
            paste_links []))
    (fun _ => ret []).

Definition fetch_paste_content (site : Site) (paste_id : string)
    : io (option string) :=
  catch_only is_request_exception
    (text <- lift (raw site paste_id) ;; ret (Some text))
    (fun _ => ret None).

(** A match object is true, [None] is false. *)
Definition found {A : Type} (m : option A) : bool :=
  match m with Some _ => true | None => false end.

Section Matching.

(** [str.lower] and the class [\w] of the interpreter. *)
Variable lower : string -> string.
Variable word : ascii -> bool.

Definition check_keywords (self : PastebinCrawler) (content : option string)
    : list string :=
  match content with
  | None => []
  | Some content =>
      if is_empty content then []
      else
        let content_lower := lower content in
        fold_left
          (fun found_keywords keyword =>
             let pattern :=
               Re.Seq Re.Bnd (Re.Seq (Re.escape (lower keyword)) Re.Bnd) in
             if found (Re.search word false pattern content_lower)
                || is_substring (lower keyword) content_lower
             then (found_keywords ++ [keyword])%list
             else found_keywords)
          (keywords self) []
  end.

(** The dictionary of a match, or [None]. *)
Definition process_paste (self : PastebinCrawler) (site : Site)
    (paste_id : string) : io (option jdict) :=
  content <- fetch_paste_content site paste_id ;;
  match content with
  | None => ret None
  | Some text =>
      if is_empty text then ret None
      else
        match check_keywords self (Some text) with
        | [] => ret None
        | keywords_found =>
            now <- utcnow ;;
            ret (Some
              [("source", JStr "pastebin");
               ("context",
                JStr ("Found crypto-related content in Pastebin paste ID "
                      ++ paste_id));
               ("paste_id", JStr paste_id);
               ("url", JStr (raw_paste_url paste_id));
               ("discovered_at", JStr now);
               ("keywords_found", JList keywords_found);
               ("status", JStr "pending")])
        end
  end.

(** [not result]: [None] and the empty dictionary are false. *)
Definition is_false (result : option jdict) : bool :=
  match result with
  | Some (_ :: _) => false
  | _ => true
  end.

Definition save_result (self : PastebinCrawler) (result : option jdict)
    : io unit :=
  match result with
  | Some (kv :: d) =>
      open_a (output_file self) ;;
      write_end (output_file self) (json_dumps (kv :: d) ++ newline)
  | _ => ret tt
  end.

(** [run]: the pool returns the results in the order of the identifiers;
    the workers write nothing, so they are run one after the other. *)
Definition run (self : PastebinCrawler) (site : Site) : io unit :=
  paste_ids <- get_archive_paste_ids site ;;
  match paste_ids with
  | [] => ret tt
  | _ :: _ =>
      open_w (output_file self) ;;
      results <- map_io (process_paste self site) paste_ids ;;
      for_each
        (fun result => if is_false result then ret tt else save_result self result)
        results
  end.

End Matching.

End Pastebin.

(** * The Telegram onion-link extractor ([program.py]) *)
Module Telegram.

(** The fields of the extractor that the modelled methods read; the API
    credentials only serve the connection. *)
Record TelegramOnionExtractor : Type := {
  channel_username : string;
  output_file : string;
  last_id_file : string
}.

(** [__init__] with its default arguments. *)
Definition init : TelegramOnionExtractor :=
  {| channel_username := "toronionlinks";
     output_file := "onion_links.jsonl";
     last_id_file := "last_message_id.txt" |}.

(** [[a-zA-Z0-9\-\.]] *)
Definition host_class (c : ascii) : bool :=
  is_ascii_lower c || is_ascii_upper c || is_digit c
  || Ascii.eqb c "-" || Ascii.eqb c ".".

(** [[a-zA-Z0-9\-\.\/\?\=\&\%]] *)
Definition path_class (c : ascii) : bool :=
  is_ascii_lower c || is_ascii_upper c || is_digit c
  || Ascii.eqb c "-" || Ascii.eqb c "." || Ascii.eqb c "/" || Ascii.eqb c "?"
  || Ascii.eqb c "=" || Ascii.eqb c "&" || Ascii.eqb c "%".

(** [self.onion_pattern], part by part: the optional group 1,
    [https?:\/\/]; group 2, one or more characters of [host_class]; the
    literal [\.onion]; the optional group 3, a slash and any number of
    characters of [path_class]. *)
Definition onion_pattern : Re.regex :=
  Re.Seq
    (Re.Opt (Re.Grp 1
       (Re.Seq (Re.lits "http") (Re.Seq (Re.Opt (Re.Lit "s")) (Re.lits "://")))))
    (Re.Seq (Re.Grp 2 (Re.Plus host_class))
       (Re.Seq (Re.lits ".onion")
          (Re.Opt (Re.Grp 3 (Re.Seq (Re.Lit "/") (Re.Star path_class)))))).

(** [self.onion_pattern.findall(text)], the pattern compiled with
    [re.IGNORECASE]. *)
Definition onion_findall (text : string) : list (string * string * string) :=
  Re.findall3 ascii_word true onion_pattern text.

(** A message of the channel: its identifier and its text, if it has one. *)
Record Message : Type := {
  id : Z;
  text : option string
}.

(** A channel as one run sees it: the messages that the iteration yields,
    in its order, and the exception that ends the iteration after them,
    if any. *)
Record Channel : Type := {
  history : list Message;
  failure : option exn
}.

(** The service as one run meets it: [create] is the constructor
    [TelegramClient(...)], which raises or builds the client; [start]
    raises or connects; [get_entity] raises, or returns the channel or
    nothing; [disconnect] raises or closes the session. *)
Record Client : Type := {
  create : outcome unit;
  start : outcome unit;
  get_entity : outcome (option Channel);
  disconnect : outcome unit
}.

(** [client.iter_messages(channel, limit=limit)]: at most [limit] messages;
    the failure is met only when the iteration goes past the history. *)
Definition iter_messages (channel : Channel) (limit : nat)
    : list Message * option exn :=
  (firstn limit (history channel),
   if Nat.leb limit (List.length (history channel)) then None
   else failure channel).

Definition get_last_message_id (self : TelegramOnionExtractor) : io Z :=
  catch
    (present <- path_exists (last_id_file self) ;;
     if present then
       data <- read_text (last_id_file self) ;;
       lift (int_of_str (strip data))
     else ret 0%Z)
    (fun _ => ret 0%Z).

(** The file operations of [save_last_message_id], in order: the opening
    for writing, then the write that the closing completes. *)
Definition save_steps (self : TelegramOnionExtractor) (message_id : Z)
    : list (io unit) :=
  [open_w (last_id_file self);
   write_end (last_id_file self) (str_of_int message_id)].

Definition run_steps (steps : list (io unit)) : io unit :=
  for_each (fun step => step) steps.

Definition save_last_message_id (self : TelegramOnionExtractor)
    (message_id : Z) : io unit :=
  catch (run_steps (save_steps self message_id)) (fun _ => ret tt).

Definition extract_onion_links (self : TelegramOnionExtractor)
    (text : option string) : list string :=
  match text with
  | None => []
  | Some text =>
      if is_empty text then []
      else
        fold_left
          (fun links m =>
             let '(m0, m1, m2) := m in
             let protocol := if is_empty m0 then "http://" else m0 in
             let domain := m1 ++ ".onion" in
             let path := if is_empty m2 then EmptyString else m2 in
             let full_url := protocol ++ domain ++ path in
             (links ++ [full_url])%list)
          (onion_findall text) []
  end.

Definition save_link (self : TelegramOnionExtractor) (url : string) : io unit :=
  now <- utcnow ;;
  let entry :=
    [("source", JStr "telegram");
     ("url", JStr url);
     ("discovered_at", JStr now);
     ("context", JStr ("Found in Telegram channel @" ++ channel_username self));
     ("status", JStr "pending")] in
  catch
    (open_a (output_file self) ;;
     write_end (output_file self) (json_dumps entry ++ newline))
    (fun _ => ret tt).

(** The body of the loop over the messages; it returns [highest_id]. *)
Definition process_message (self : TelegramOnionExtractor) (last_id : Z)
    (highest_id : Z) (message : Message) : io Z :=
  if (id message <=? last_id)%Z then ret highest_id
  else
    let highest_id :=
      if (id message >? highest_id)%Z then id message else highest_id in
    catch
      (match text message with
       | Some t =>
           if is_empty t then ret tt
           else for_each (save_link self) (extract_onion_links self (Some t))
       | None => ret tt
       end)
      (fun _ => ret tt) ;;
    ret highest_id.

Definition default_limit : nat := 100.

Definition process_messages (self : TelegramOnionExtractor) (client : Client)
    (limit : nat) : io unit :=
  catch
    (channel <- lift (get_entity client) ;;
     match channel with
     | None => ret tt
     | Some channel =>
         last_id <- get_last_message_id self ;;
         (if (last_id =? 0)%Z then open_w (output_file self) else ret tt) ;;
         let '(messages, failure) := iter_messages channel limit in
         highest_id <- for_fold (process_message self last_id) messages last_id ;;
         match failure with
         | Some e => raise e
         | None => ret tt
         end ;;
         if (highest_id >? last_id)%Z
         then save_last_message_id self highest_id
         else ret tt
     end)
    (fun _ => ret tt).

(** [connect]: the client is built and bound to [self.client], then
    started. *)
Definition connect (client : Client) : io unit :=
  lift (create client) ;;
  lift (start client).

(** [self.client.disconnect()] in the [finally] clause of [run]:
    [self.client] is bound only when the constructor has returned, and
    [__init__] does not bind it; reading it unbound raises
    [AttributeError]. *)
Definition disconnect_client (client : Client) : io unit :=
  match create client with
  | Ok _ => lift (disconnect client)
  | Raise _ => raise AttributeError
  end.

(** [run]: connect and process the messages with the default limit;
    disconnect whatever happened. *)
Definition run (self : TelegramOnionExtractor) (client : Client) : io unit :=
  finally
    (connect client ;;
     process_messages self client default_limit)
    (disconnect_client client).

(** The world after the script has run once for each element of
    [clients], in order; an exception ends one run, not the next. *)
Fixpoint after_runs (self : TelegramOnionExtractor) (clients : list Client)
    (w : world) : world :=
  match clients with
  | [] => w
  | client :: clients' => after_runs self clients' (snd (run self client w))
  end.

End Telegram.

(** * The vocabulary of the properties *)

(** Text made of decimal digits only. *)
Fixpoint all_digits (s : string) : bool :=
  match s with
  | EmptyString => true
  | String c s' => is_digit c && all_digits s'
  end.

(** The keywords that occur in the lowered text, as [k in text] tests it. *)
Definition substring_filter (lower : string -> string)
    (keywords : list string) (content : string) : list string :=
  List.filter (fun k => is_substring (lower k) (lower content)) keywords.

(** The value that a checkpoint file stands for. *)
Definition checkpoint_of (f : option file) : Z :=
  match f with
  | Some (Regular data) =>
      match int_of_str (strip data) with
      | Ok n => n
      | Raise _ => 0%Z
      end
  | Some Denied => 0%Z
  | None => 0%Z
  end.

(** [w'] comes from [w] by appending to the file at [out] (or creating
    it) and by reading the clock; nothing else has changed. *)
Record extends (out : string) (w w' : world) : Prop := {
  ext_other : forall p, p <> out -> files w' !! p = files w !! p;
  ext_denied : files w' !! out = Some Denied <-> files w !! out = Some Denied;
  ext_prefix : forall old, files w !! out = Some (Regular old) ->
               exists new, files w' !! out = Some (Regular (old ++ new));
  ext_clock : clock w' = clock w
}.

(** The new value of [highest_id] after one message. *)
Definition next_highest (last_id highest_id : Z) (m : Telegram.Message) : Z :=
  if (Telegram.id m <=? last_id)%Z then highest_id
  else if (Telegram.id m >? highest_id)%Z then Telegram.id m else highest_id.

(** The world in which the loop over the messages starts: the output file
    is cut when the checkpoint reads zero. *)
Definition before_loop (self : Telegram.TelegramOnionExtractor) (w : world)
    : world :=
  if (checkpoint_of (files w !! Telegram.last_id_file self) =? 0)%Z
  then set_files (<[Telegram.output_file self := Regular EmptyString]> (files w)) w
  else w.

(** What one run leaves, for a channel that was found. *)
Definition run_leaves (self : Telegram.TelegramOnionExtractor)
    (channel : Telegram.Channel) (limit : nat) (w w' : world) : Prop :=
  let last_id := checkpoint_of (files w !! Telegram.last_id_file self) in
  let messages := firstn limit (Telegram.history channel) in
  let highest_id := fold_left Z.max (List.map Telegram.id messages) last_id in
  (last_id = 0%Z /\ files w !! Telegram.output_file self = Some Denied /\ w' = w)
  \/
  (~ (last_id = 0%Z /\ files w !! Telegram.output_file self = Some Denied)
   /\ exists w2,
        extends (Telegram.output_file self) (before_loop self w) w2
        /\ (Forall (fun m => (Telegram.id m <= last_id)%Z) messages -> w2 = before_loop self w)
        /\ w' = match snd (Telegram.iter_messages channel limit) with
                | Some _ => w2
                | None =>
                    if (highest_id >? last_id)%Z
                    then snd (Telegram.save_last_message_id self highest_id w2)
                    else w2
                end).

(** The world in which the script dies after [k] of the file operations
    of [save_last_message_id]. *)
Definition crash_after (self : Telegram.TelegramOnionExtractor) (k : nat)
    (message_id : Z) (w : world) : world :=
  snd (Telegram.run_steps (firstn k (Telegram.save_steps self message_id)) w).

(** The world with the file at [path] emptied. *)
Definition emptied (path : string) (w : world) : world :=
  set_files (<[path := Regular EmptyString]> (files w)) w.

(** ** Concrete crawlers, channels and worlds *)

Definition fixed_clock (n : nat) : string := "2024-01-01T00:00:00Z".

Definition world_of (fs : gmap string file) : world :=
  {| files := fs; clock := fixed_clock; ticks := 0 |}.

(** The crawler of the scenario of the specification. *)
Definition scenario_crawler : Pastebin.PastebinCrawler :=
  Pastebin.init (Some ["bitcoin"; "t.me"]) "keyword_matches.jsonl".

Definition scenario_body : string :=
  "Join our crypto group at t.me/group123 for BITCOIN tips".

(** A crawler whose only keyword is the empty string. *)
Definition blank_crawler : Pastebin.PastebinCrawler :=
  Pastebin.init (Some [EmptyString]) "keyword_matches.jsonl".

(** The scenario of the specification for the checkpoint: no checkpoint
    file, the messages 3, 2 and 1 listed, message 2 without a body, and
    no link in the two others. *)
Definition scenario_channel : Telegram.Channel :=
  {| Telegram.history :=
       [ {| Telegram.id := 3; Telegram.text := Some "nothing to see here" |};
         {| Telegram.id := 2; Telegram.text := None |};
         {| Telegram.id := 1; Telegram.text := Some "still nothing" |} ];
     Telegram.failure := None |}.

Definition scenario_client : Telegram.Client :=
  {| Telegram.create := Ok tt;
     Telegram.start := Ok tt;
     Telegram.get_entity := Ok (Some scenario_channel);
     Telegram.disconnect := Ok tt |}.

(** A world with a checkpoint and an output file from earlier runs. *)
Definition later_world : world :=
  world_of (<["last_message_id.txt" := Regular "5"]>
            (<["onion_links.jsonl" := Regular ("an earlier record" ++ newline)]> ∅)).

(** An archive that cannot be reached. *)
Definition failing_site : Pastebin.Site :=
  {| Pastebin.archive := Raise RequestException;
     Pastebin.raw := fun _ => Raise RequestException |}.

(** An archive with one paste that matches no keyword. *)
Definition quiet_site : Pastebin.Site :=
  {| Pastebin.archive := Ok [Some "/Ab12Cd34"];
     Pastebin.raw := fun _ => Ok "nothing of interest" |}.

Definition crawled_world : world :=
  world_of (<["keyword_matches.jsonl" := Regular ("an earlier record" ++ newline)]> ∅).

(** A channel without messages, met with no checkpoint file. *)
Definition empty_client : Telegram.Client :=
  {| Telegram.create := Ok tt;
     Telegram.start := Ok tt;
     Telegram.get_entity :=
       Ok (Some {| Telegram.history := []; Telegram.failure := None |});
     Telegram.disconnect := Ok tt |}.

Definition first_world : world :=
  world_of (<["onion_links.jsonl" := Regular ("an earlier record" ++ newline)]> ∅).

(** ** Vocabulary of the further properties *)

(** Text made of the ASCII characters from the space to the tilde. *)
Fixpoint all_printable (s : string) : bool :=
  match s with
  | EmptyString => true
  | String c s' => in_range 32 126 c && all_printable s'
  end.

(** The line that [save_result] writes for a result. *)
Definition record_line (result : option jdict) : string :=
  match result with
  | Some (kv :: d) => json_dumps (kv :: d) ++ newline
  | _ => EmptyString
  end.

(** The lines one after the other. *)
Fixpoint join_lines (lines : list string) : string :=
  match lines with
  | [] => EmptyString
  | l :: lines' => l ++ join_lines lines'
  end.

(** Text made of blanks only. *)
Fixpoint all_space (s : string) : bool :=
  match s with
  | EmptyString => true
  | String c s' => isspace c && all_space s'
  end.

(** The record of a link, as [save_link] serialises it. *)
Definition link_record (self : Telegram.TelegramOnionExtractor) (url now : string)
    : string :=
  json_dumps
    [("source", JStr "telegram");
     ("url", JStr url);
     ("discovered_at", JStr now);
     ("context",
      JStr ("Found in Telegram channel @" ++ Telegram.channel_username self));
     ("status", JStr "pending")].

(** The lines of the links [links], the first one stamped with the
    [t]-th reading of the clock. *)
Fixpoint link_lines (self : Telegram.TelegramOnionExtractor)
    (clock : nat -> string) (t : nat) (links : list string) : string :=
  match links with
  | [] => EmptyString
  | url :: links' =>
      (link_record self url (clock t) ++ newline)
      ++ link_lines self clock (S t) links'
  end.

(** The links of the messages above the checkpoint, in the order of the
    listing. *)
Definition new_links (self : Telegram.TelegramOnionExtractor) (last_id : Z)
    (messages : list Telegram.Message) : list string :=
  flat_map
    (fun m =>
       if (Telegram.id m <=? last_id)%Z then []
       else Telegram.extract_onion_links self (Telegram.text m))
    messages.

(** What a step leaves: [added] after the text of the output file, [n]
    more readings of the clock, and nothing else. *)
Definition wrote (self : Telegram.TelegramOnionExtractor) (w w' : world)
    (acc added : string) (n : nat) : Prop :=
  files w' !! Telegram.output_file self = Some (Regular (acc ++ added))
  /\ ticks w' = ticks w + n
  /\ clock w' = clock w
  /\ forall p, p <> Telegram.output_file self -> files w' !! p = files w !! p.

(** ** What a match of a pattern is

    The matcher of [Re] searches; the relations below say what it finds:
    [matches r prev s g prev' s' g'] holds when [r] matches a prefix of
    [s] and leaves [s'], the groups going from [g] to [g']. *)

(** Every character of [s] is in the class [p]. *)
Fixpoint all_in (p : ascii -> bool) (s : string) : bool :=
  match s with
  | EmptyString => true
  | String c s' => p c && all_in p s'
  end.

Section Semantics.

Variable word : ascii -> bool.
Variable ignorecase : bool.

Inductive repeats (p : ascii -> bool)
  : option ascii -> string -> option ascii -> string -> Prop :=
| repeats_nil prev s : repeats p prev s prev s
| repeats_cons prev x s prev' s' :
    Re.cls_matches ignorecase p x = true ->
    repeats p (Some x) s prev' s' ->
    repeats p prev (String x s) prev' s'.

Inductive matches
  : Re.regex -> option ascii -> string -> Re.groups
    -> option ascii -> string -> Re.groups -> Prop :=
| matches_eps prev s g : matches Re.Eps prev s g prev s g
| matches_lit c prev x s g :
    Re.lit_matches ignorecase c x = true ->
    matches (Re.Lit c) prev (String x s) g (Some x) s g
| matches_cls p prev x s g :
    Re.cls_matches ignorecase p x = true ->
    matches (Re.Cls p) prev (String x s) g (Some x) s g
| matches_bnd prev s g :
    Re.at_boundary word prev s = true ->
    matches Re.Bnd prev s g prev s g
| matches_seq r1 r2 prev s g prev1 s1 g1 prev2 s2 g2 :
    matches r1 prev s g prev1 s1 g1 ->
    matches r2 prev1 s1 g1 prev2 s2 g2 ->
    matches (Re.Seq r1 r2) prev s g prev2 s2 g2
| matches_opt_some r prev s g prev' s' g' :
    matches r prev s g prev' s' g' ->
    matches (Re.Opt r) prev s g prev' s' g'
| matches_opt_none r prev s g : matches (Re.Opt r) prev s g prev s g
| matches_star p prev s g prev' s' :
    repeats p prev s prev' s' ->
    matches (Re.Star p) prev s g prev' s' g
| matches_plus p prev x s g prev' s' :
    Re.cls_matches ignorecase p x = true ->
    repeats p (Some x) s prev' s' ->
    matches (Re.Plus p) prev (String x s) g prev' s' g
| matches_grp n r prev s g prev' s' g' :
    matches r prev s g prev' s' g' ->
    matches (Re.Grp n r) prev s g prev' s' ((n, Re.consumed s s') :: g').

End Semantics.

(** An archive page with two pastes and two links that are none; the
    first paste holds the text of the scenario, the request for the
    second fails. *)
Definition busy_site : Pastebin.Site :=
  {| Pastebin.archive :=
       Ok [Some "/Ab12Cd34"; None; Some "https://pastebin.com/tools"; Some "/Zz99Yy88"];
     Pastebin.raw :=
       fun paste_id =>
         if String.eqb paste_id "Ab12Cd34" then Ok scenario_body
         else Raise RequestException |}.

(** A world in which the output file of the crawler cannot be opened. *)
Definition locked_world : world :=
  world_of (<["keyword_matches.jsonl" := Denied]> ∅).

(** A checkpoint file written by hand, with blanks and a line break. *)
Definition hand_written_world : world :=
  world_of (<["last_message_id.txt" := Regular ("  " ++ str_of_int 42 ++ newline)]> ∅).

(** A world in which the output file of the extractor cannot be opened,
    with a checkpoint. *)
Definition mute_world : world :=
  world_of (<["last_message_id.txt" := Regular "1"]>
            (<["onion_links.jsonl" := Denied]> ∅)).

(** A channel with one message above the checkpoint of [later_world],
    which holds two links. *)
Definition fresh_channel : Telegram.Channel :=
  {| Telegram.history :=
       [ {| Telegram.id := 9;
            Telegram.text := Some "new: http://abc123xyz.onion/page?x=1 and def456.onion" |};
         {| Telegram.id := 5; Telegram.text := Some "old: ghi789.onion" |} ];
     Telegram.failure := None |}.

Definition fresh_client : Telegram.Client :=
  {| Telegram.create := Ok tt;
     Telegram.start := Ok tt;
     Telegram.get_entity := Ok (Some fresh_channel);
     Telegram.disconnect := Ok tt |}.

(** A channel whose listing yields one message with a link and is then
    cut short by the service. *)
Definition flooded_channel : Telegram.Channel :=
  {| Telegram.history :=
       [ {| Telegram.id := 9;
            Telegram.text := Some "new: http://abc123xyz.onion/page?x=1" |} ];
     Telegram.failure := Some (FloodWaitError 30) |}.

Definition flooded_client : Telegram.Client :=
  {| Telegram.create := Ok tt;
     Telegram.start := Ok tt;
     Telegram.get_entity := Ok (Some flooded_channel);
     Telegram.disconnect := Ok tt |}.

(** A session whose constructor raises, and one that cannot be closed. *)
Definition unbuilt_client : Telegram.Client :=
  {| Telegram.create := Raise ValueError;
     Telegram.start := Ok tt;
     Telegram.get_entity := Ok (Some scenario_channel);
     Telegram.disconnect := Ok tt |}.

Definition unclosed_client : Telegram.Client :=
  {| Telegram.create := Ok tt;
     Telegram.start := Ok tt;
     Telegram.get_entity := Ok (Some scenario_channel);
     Telegram.disconnect := Raise OSError |}.

(** * Facts about the runtime *)

Lemma append_empty_r (s : string) : s ++ EmptyString = s.
Proof.
  induction s as [|c s IH]; [reflexivity|].
  change (String c s ++ EmptyString) with (String c (s ++ EmptyString)).
  now rewrite IH.
Qed.

Lemma append_assoc (a b c : string) : (a ++ b) ++ c = a ++ (b ++ c).
Proof.
  induction a as [|x a IH]; [reflexivity|].
  change ((String x a ++ b) ++ c) with (String x ((a ++ b) ++ c)).
  now rewrite IH.
Qed.

Lemma bind_ok {A B : Type} (m : io A) (f : A -> io B) w a w' :
  m w = (Ok a, w') -> bind m f w = f a w'.
Proof. intros H. unfold bind. now rewrite H. Qed.

Lemma digit_not_space c : is_digit c = true -> isspace c = false.
Proof.
  unfold is_digit, isspace, in_range. intros H.
  apply andb_true_iff in H as [H1 H2].
  apply N.leb_le in H1. apply N.leb_le in H2.
  repeat rewrite orb_false_iff. repeat split.
  - apply andb_false_iff. right. apply N.leb_gt. lia.
  - apply andb_false_iff. right. apply N.leb_gt. lia.
  - apply N.eqb_neq. lia.
  - apply N.eqb_neq. lia.
Qed.

Lemma string_of_uint_digits d : all_digits (NilEmpty.string_of_uint d) = true.
Proof. induction d; simpl; auto. Qed.

Lemma rstrip_digits s : all_digits s = true -> rstrip s = s.
Proof.
  induction s as [|c s IH]; simpl; [reflexivity|].
  intros H. apply andb_true_iff in H as [Hc Hs].
  rewrite (digit_not_space c Hc), (IH Hs). reflexivity.
Qed.

Lemma strip_digits s : all_digits s = true -> strip s = s.
Proof.
  intros H. unfold strip.
  destruct s as [|c s]; [reflexivity|].
  simpl in H. apply andb_true_iff in H as [Hc Hs].
  simpl lstrip. rewrite (digit_not_space c Hc).
  apply rstrip_digits. simpl. now rewrite Hc, Hs.
Qed.

Lemma strip_minus_digits s :
  all_digits s = true -> strip (String "-" s) = String "-" s.
Proof.
  intros H. unfold strip.
  change (lstrip (String "-" s)) with (String "-" s).
  change (rstrip (String "-" s))
    with (if isspace "-" && is_empty (rstrip s) then EmptyString
          else String "-" (rstrip s)).
  rewrite (rstrip_digits s H). reflexivity.
Qed.

Lemma parse_string_of_uint d b :
  parse_digits (NilEmpty.string_of_uint d) b =
  match d with
  | Decimal.Nil => if b then Some Decimal.Nil else None
  | _ => Some d
  end.
Proof.
  revert b. induction d; intros b; simpl; try reflexivity;
    rewrite IHd; destruct d; reflexivity.
Qed.

Lemma to_uint_not_nil p : Pos.to_uint p <> Decimal.Nil.
Proof. apply Unsigned.to_uint_nonnil. Qed.

Lemma of_uint_to_uint p : Z.of_uint (Pos.to_uint p) = Z.pos p.
Proof. unfold Z.of_uint. now rewrite Unsigned.of_to. Qed.

Lemma parse_to_uint p b :
  parse_digits (NilEmpty.string_of_uint (Pos.to_uint p)) b = Some (Pos.to_uint p).
Proof.
  rewrite parse_string_of_uint.
  pose proof (to_uint_not_nil p). destruct (Pos.to_uint p); congruence.
Qed.

(** A decimal text that starts with a digit carries no sign. *)
Lemma int_of_str_unsigned s d :
  s <> EmptyString -> all_digits s = true ->
  parse_digits s false = Some d ->
  int_of_str s = Ok (Z.of_uint d).
Proof.
  intros Hne Hd Hp. unfold int_of_str. rewrite (strip_digits s Hd).
  destruct s as [|c s]; [congruence|].
  simpl in Hd. apply andb_true_iff in Hd as [Hc _].
  assert (c <> "-"%char /\ c <> "+"%char) as [H1 H2].
  { split; intros ->; discriminate. }
  destruct c as [[|] [|] [|] [|] [|] [|] [|] [|]];
    try discriminate; try congruence; rewrite Hp; reflexivity.
Qed.

(** [int(str(n))] is [n]. *)
Lemma int_of_str_of_int n : int_of_str (str_of_int n) = Ok n.
Proof.
  destruct n as [|p|p]; [reflexivity| |].
  - unfold str_of_int. simpl Z.to_int. unfold NilZero.string_of_int, NilZero.string_of_uint.
    pose proof (to_uint_not_nil p) as Hn.
    assert (NilEmpty.string_of_uint (Pos.to_uint p) <> EmptyString) as Hne.
    { destruct (Pos.to_uint p); simpl; congruence. }
    replace (match Pos.to_uint p with Decimal.Nil => "0" | _ => NilEmpty.string_of_uint (Pos.to_uint p) end)
      with (NilEmpty.string_of_uint (Pos.to_uint p)) by (destruct (Pos.to_uint p); congruence).
    rewrite (int_of_str_unsigned _ (Pos.to_uint p) Hne (string_of_uint_digits _) (parse_to_uint p false)).
    now rewrite of_uint_to_uint.
  - unfold str_of_int. simpl Z.to_int. unfold NilZero.string_of_int, NilZero.string_of_uint.
    pose proof (to_uint_not_nil p) as Hn.
    replace (match Pos.to_uint p with Decimal.Nil => "0" | _ => NilEmpty.string_of_uint (Pos.to_uint p) end)
      with (NilEmpty.string_of_uint (Pos.to_uint p)) by (destruct (Pos.to_uint p); congruence).
    unfold int_of_str.
    rewrite (strip_minus_digits _ (string_of_uint_digits _)).
    rewrite parse_to_uint. now rewrite of_uint_to_uint.
Qed.

Lemma strip_str_of_int n : strip (str_of_int n) = str_of_int n.
Proof.
  destruct n as [|p|p]; [reflexivity| |];
    unfold str_of_int; simpl Z.to_int;
    unfold NilZero.string_of_int, NilZero.string_of_uint;
    pose proof (to_uint_not_nil p) as Hn;
    replace (match Pos.to_uint p with Decimal.Nil => "0" | _ => NilEmpty.string_of_uint (Pos.to_uint p) end)
      with (NilEmpty.string_of_uint (Pos.to_uint p)) by (destruct (Pos.to_uint p); congruence).
  - apply strip_digits, string_of_uint_digits.
  - apply strip_minus_digits, string_of_uint_digits.
Qed.

(** A loop that appends one element per item is a map. *)
Lemma fold_left_append_map {A B : Type} (f : list B -> A -> list B) (g : A -> B)
    (l : list A) (acc : list B) :
  (forall acc x, f acc x = (acc ++ [g x])%list) ->
  fold_left f l acc = (acc ++ List.map g l)%list.
Proof.
  intros Hf. revert acc. induction l as [|x l IH]; intros acc; cbn [fold_left List.map].
  - now rewrite app_nil_r.
  - rewrite IH, Hf, <- app_assoc. reflexivity.
Qed.


(** * The keyword matcher *)

Section Search.

Variable word : ascii -> bool.

(** A pattern made of literals matches only where the text continues with
    these very characters. *)
Lemma rmatch_lits_prefix {T : Type} (k : string) :
  forall prev s g (K : option ascii -> string -> Re.groups -> option T) t,
    Re.rmatch word false (Re.lits k) prev s g K = Some t ->
    String.prefix k s = true.
Proof.
  induction k as [|c k IH]; intros prev s g K t H.
  - destruct s; reflexivity.
  - simpl in H. destruct s as [|x s]; [discriminate|].
    unfold Re.lit_matches in H.
    destruct (Ascii.eqb c x) eqn:E; [|discriminate].
    apply Ascii.eqb_eq in E. subst x.
    simpl. destruct (ascii_dec c c) as [_|N]; [|congruence].
    exact (IH _ _ _ _ _ H).
Qed.

Lemma match_here_escape_prefix k prev s m :
  Re.match_here word false (Re.Seq Re.Bnd (Re.Seq (Re.escape k) Re.Bnd)) prev s
    = Some m ->
  String.prefix k s = true.
Proof.
  unfold Re.match_here, Re.escape. simpl.
  destruct (Re.at_boundary word prev s); [|discriminate].
  apply rmatch_lits_prefix.
Qed.

Lemma search_from_escape_substring k :
  forall s prev m,
    Re.search_from word false (Re.Seq Re.Bnd (Re.Seq (Re.escape k) Re.Bnd)) prev s
      = Some m ->
    is_substring k s = true.
Proof.
  induction s as [|x s IH]; intros prev m H.
  - simpl in H.
    destruct (Re.match_here word false _ prev EmptyString) eqn:E; [|discriminate].
    apply match_here_escape_prefix in E. cbn [is_substring]. now rewrite E.
  - cbn [Re.search_from] in H.
    destruct (Re.match_here word false _ prev (String x s)) eqn:E.
    + apply match_here_escape_prefix in E.
      cbn [is_substring]. now rewrite E.
    + apply IH in H. cbn [is_substring]. rewrite H. apply orb_true_r.
Qed.

(** The word-boundary branch of the test adds nothing to the substring
    branch. *)
Lemma boundary_search_subsumed k s :
  Pastebin.found
    (Re.search word false (Re.Seq Re.Bnd (Re.Seq (Re.escape k) Re.Bnd)) s)
  || is_substring k s = is_substring k s.
Proof.
  destruct (Re.search word false _ s) eqn:E; [|reflexivity].
  apply search_from_escape_substring in E. now rewrite E.
Qed.

End Search.

(** A loop that appends the elements passing a test is a filter. *)
Lemma fold_left_append_filter {A : Type} (p q : A -> bool) (l acc : list A) :
  (forall x, p x = q x) ->
  fold_left (fun found x => if p x then (found ++ [x])%list else found) l acc
  = (acc ++ List.filter q l)%list.
Proof.
  intros Hpq. revert acc. induction l as [|x l IH]; intros acc; simpl.
  - now rewrite app_nil_r.
  - rewrite IH, <- Hpq. destruct (p x); [|reflexivity].
    now rewrite <- app_assoc.
Qed.

Section Keywords.

Variable lower : string -> string.
Variable word : ascii -> bool.

(** On a text that is not empty the loop of [check_keywords] keeps the
    keywords that pass the substring test, and no other. *)
Lemma check_keywords_filter self content :
  content <> EmptyString ->
  Pastebin.check_keywords lower word self (Some content)
  = List.filter (fun k => is_substring (lower k) (lower content))
      (Pastebin.keywords self).
Proof.
  intros Hne. unfold Pastebin.check_keywords.
  destruct content as [|c content]; [congruence|]. cbn [is_empty].
  rewrite fold_left_append_filter
    with (q := fun k => is_substring (lower k) (lower (String c content))).
  - reflexivity.
  - intros k. apply boundary_search_subsumed.
Qed.

(** On the empty text and on [None] nothing is returned, whatever the
    keywords. *)
Lemma check_keywords_nothing self :
  Pastebin.check_keywords lower word self None = []
  /\ Pastebin.check_keywords lower word self (Some EmptyString) = [].
Proof. split; reflexivity. Qed.

(** C1 (as amended): for every text body that is not empty and every
    configured keyword, if the lowercase form of the keyword occurs in the
    lowercased body as a substring, whatever stands around it, then
    [check_keywords] returns that keyword. *)
Theorem check_keywords_includes_substring_match self content keyword :
  content <> EmptyString ->
  In keyword (Pastebin.keywords self) ->
  is_substring (lower keyword) (lower content) = true ->
  In keyword (Pastebin.check_keywords lower word self (Some content)).
Proof.
  intros Hne Hin Hsub. rewrite check_keywords_filter by assumption.
  apply filter_In. split; assumption.
Qed.

(** C10 (as amended): for every input text that is not empty,
    [check_keywords] returns exactly the configured keywords whose
    lowercase form is a substring of the lowercased text, in the order of
    the configuration and each as often as it is configured: the
    word-boundary search adds nothing to the substring test, and the
    function equals the plain substring filter [substring_filter]. *)
Theorem check_keywords_is_substring_filter self content :
  content <> EmptyString ->
  Pastebin.check_keywords lower word self (Some content)
  = substring_filter lower (Pastebin.keywords self) content.
Proof.
  intros Hne. unfold substring_filter. now apply check_keywords_filter.
Qed.

(** A configuration without repeated keywords gives a result without
    repeated keywords. *)
Lemma check_keywords_NoDup self content :
  content <> EmptyString ->
  List.NoDup (Pastebin.keywords self) ->
  List.NoDup (Pastebin.check_keywords lower word self (Some content)).
Proof.
  intros Hne Hnd. rewrite check_keywords_filter by assumption.
  now apply List.NoDup_filter.
Qed.

End Keywords.

(** * Appending to the output file *)

Lemma extends_refl out w : extends out w w.
Proof.
  split.
  - reflexivity.
  - reflexivity.
  - intros old H. exists EmptyString. now rewrite append_empty_r.
  - reflexivity.
Qed.

Lemma extends_trans out w1 w2 w3 :
  extends out w1 w2 -> extends out w2 w3 -> extends out w1 w3.
Proof.
  intros [O1 D1 P1 C1] [O2 D2 P2 C2]. split.
  - intros p Hp. now rewrite O2, O1.
  - tauto.
  - intros old H. destruct (P1 old H) as [n1 H1].
    destruct (P2 _ H1) as [n2 H2]. exists (n1 ++ n2).
    now rewrite <- append_assoc.
  - congruence.
Qed.

Lemma open_a_write_end_extends out line w :
  exists w', catch (open_a out ;; write_end out line) (fun _ => ret tt) w = (Ok tt, w')
             /\ extends out w w'.
Proof.
  unfold catch, bind, open_a, write_end, ret.
  destruct (files w !! out) as [[old|]|] eqn:E.
  - simpl. rewrite E. eexists. split; [reflexivity|]. split; cbn.
    + intros p Hp. now rewrite lookup_insert_ne.
    + rewrite lookup_insert_eq, E. split; discriminate.
    + intros old' H. rewrite E in H. injection H as <-.
      exists line. now rewrite lookup_insert_eq.
    + reflexivity.
  - eexists. split; [reflexivity|]. apply extends_refl.
  - cbn. rewrite lookup_insert_eq. eexists. split; [reflexivity|]. split; cbn.
    + intros p Hp. now rewrite !lookup_insert_ne.
    + rewrite lookup_insert_eq, E. split; discriminate.
    + intros old' H. rewrite E in H. discriminate.
    + reflexivity.
Qed.

Lemma extends_tick out w :
  extends out w {| files := files w; clock := clock w; ticks := S (ticks w) |}.
Proof.
  split; cbn.
  - reflexivity.
  - reflexivity.
  - intros old H. exists EmptyString. now rewrite append_empty_r.
  - reflexivity.
Qed.

Section Extractor.

Import Telegram.

Variable self : TelegramOnionExtractor.

Lemma get_last_message_id_spec w :
  get_last_message_id self w
  = (Ok (checkpoint_of (files w !! last_id_file self)), w).
Proof.
  unfold get_last_message_id, catch, bind, path_exists, read_text, lift, ret.
  destruct (files w !! last_id_file self) as [[data|]|] eqn:E; cbn.
  - rewrite E. destruct (int_of_str (strip data)); reflexivity.
  - rewrite E. reflexivity.
  - reflexivity.
Qed.

Lemma save_last_message_id_spec message_id w :
  save_last_message_id self message_id w
  = (Ok tt,
     match files w !! last_id_file self with
     | Some Denied => w
     | _ => set_files (<[last_id_file self := Regular (str_of_int message_id)]> (files w)) w
     end).
Proof.
  unfold save_last_message_id, run_steps, save_steps, catch. cbn [for_each].
  unfold bind, open_w, write_end, ret.
  destruct (files w !! last_id_file self) as [[data|]|] eqn:E; cbn;
    try rewrite lookup_insert_eq; try rewrite insert_insert_eq; reflexivity.
Qed.

Lemma save_link_extends url w :
  exists w', save_link self url w = (Ok tt, w') /\ extends (output_file self) w w'.
Proof.
  unfold save_link, bind at 1. unfold utcnow at 1.
  match goal with |- context [catch ?m ?h ?w1] =>
    destruct (open_a_write_end_extends (output_file self)
      (json_dumps
        [("source", JStr "telegram"); ("url", JStr url);
         ("discovered_at", JStr (clock w (ticks w)));
         ("context", JStr ("Found in Telegram channel @" ++ channel_username self));
         ("status", JStr "pending")] ++ newline) w1) as [w' [H1 H2]]
  end.
  exists w'. split; [exact H1|].
  eapply extends_trans; [apply extends_tick | exact H2].
Qed.

Lemma for_each_save_link_extends links w :
  exists w', for_each (save_link self) links w = (Ok tt, w')
             /\ extends (output_file self) w w'.
Proof.
  revert w. induction links as [|l links IH]; intros w.
  - exists w. split; [reflexivity | apply extends_refl].
  - cbn [for_each]. unfold bind.
    destruct (save_link_extends l w) as [w1 [H1 E1]]. rewrite H1.
    destruct (IH w1) as [w2 [H2 E2]]. exists w2. split; [exact H2|].
    eapply extends_trans; eassumption.
Qed.

Lemma process_message_extends last_id highest_id m w :
  exists w', process_message self last_id highest_id m w
             = (Ok (next_highest last_id highest_id m), w')
             /\ extends (output_file self) w w'
             /\ ((id m <=? last_id)%Z = true -> w' = w).
Proof.
  unfold process_message, next_highest.
  destruct (id m <=? last_id)%Z.
  - exists w. split; [reflexivity|]. split; [apply extends_refl | reflexivity].
  - unfold bind, catch.
    destruct (text m) as [t|].
    + destruct (is_empty t).
      * exists w. cbn. split; [reflexivity|].
        split; [apply extends_refl | discriminate].
      * destruct (for_each_save_link_extends (extract_onion_links self (Some t)) w)
          as [w' [H E]].
        rewrite H. exists w'. cbn. split; [reflexivity|]. split; [exact E | discriminate].
    + exists w. cbn. split; [reflexivity|]. split; [apply extends_refl | discriminate].
Qed.

Lemma for_fold_extends last_id msgs : forall highest_id w,
  exists w', for_fold (process_message self last_id) msgs highest_id w
             = (Ok (fold_left (next_highest last_id) msgs highest_id), w')
             /\ extends (output_file self) w w'
             /\ (Forall (fun m => (id m <= last_id)%Z) msgs -> w' = w).
Proof.
  induction msgs as [|m msgs IH]; intros h w.
  - exists w. split; [reflexivity|]. split; [apply extends_refl | reflexivity].
  - cbn [for_fold fold_left]. unfold bind.
    destruct (process_message_extends last_id h m w) as [w1 [H1 [E1 S1]]].
    rewrite H1.
    destruct (IH (next_highest last_id h m) w1) as [w2 [H2 [E2 S2]]].
    exists w2. split; [exact H2|]. split.
    + eapply extends_trans; eassumption.
    + intros HF. inversion HF as [|? ? Hm Hms]; subst.
      rewrite (S2 Hms). apply S1. now apply Z.leb_le.
Qed.

Lemma fold_next_highest last_id msgs : forall h,
  (last_id <= h)%Z ->
  fold_left (next_highest last_id) msgs h
  = fold_left Z.max (List.map id msgs) h.
Proof.
  induction msgs as [|m msgs IH]; intros h Hh; [reflexivity|].
  cbn [fold_left List.map].
  assert (next_highest last_id h m = Z.max h (id m)) as ->.
  { unfold next_highest.
    destruct (Z.leb_spec (id m) last_id); [lia|].
    destruct (Z.gtb_spec (id m) h); lia. }
  apply IH. lia.
Qed.

Lemma fold_max_ge l : forall h, (h <= fold_left Z.max l h)%Z.
Proof.
  induction l as [|x l IH]; intros h; cbn; [lia|].
  specialize (IH (Z.max h x)). lia.
Qed.

Lemma fold_max_eq_all_le l : forall h,
  fold_left Z.max l h = h -> Forall (fun x => (x <= h)%Z) l.
Proof.
  induction l as [|x l IH]; intros h H; [constructor|].
  cbn in H. pose proof (fold_max_ge l (Z.max h x)) as G.
  assert (Z.max h x = h) as Hx by lia.
  rewrite Hx in H. constructor; [lia | now apply IH].
Qed.

Lemma fold_max_upper l : forall h x, In x l -> (x <= fold_left Z.max l h)%Z.
Proof.
  induction l as [|y l IH]; intros h x Hx; [destruct Hx|].
  cbn [fold_left]. destruct Hx as [->|Hx].
  - pose proof (fold_max_ge l (Z.max h x)). lia.
  - now apply IH.
Qed.

Lemma fold_max_attained l : forall h,
  fold_left Z.max l h = h \/ In (fold_left Z.max l h) l.
Proof.
  induction l as [|y l IH]; intros h; [now left|].
  cbn [fold_left]. destruct (IH (Z.max h y)) as [Heq|Hin].
  - rewrite Heq. destruct (Z.max_spec h y) as [[_ ->]|[_ ->]];
      [right; now left | now left].
  - right. now right.
Qed.

End Extractor.

(** * One run of the extractor *)

Section Runs.

Import Telegram.

Variable self : TelegramOnionExtractor.

(** [process_messages] without the monad: the outcome of each step. *)
Lemma process_messages_unfold client limit w :
  process_messages self client limit w =
  match get_entity client with
  | Raise _ => (Ok tt, w)
  | Ok None => (Ok tt, w)
  | Ok (Some channel) =>
      let last_id := checkpoint_of (files w !! last_id_file self) in
      match (if (last_id =? 0)%Z then open_w (output_file self) else ret tt) w with
      | (Raise _, w1) => (Ok tt, w1)
      | (Ok _, w1) =>
          match for_fold (process_message self last_id)
                  (firstn limit (history channel)) last_id w1 with
          | (Raise _, w2) => (Ok tt, w2)
          | (Ok highest_id, w2) =>
              match snd (iter_messages channel limit) with
              | Some _ => (Ok tt, w2)
              | None =>
                  if (highest_id >? last_id)%Z
                  then (Ok tt, snd (save_last_message_id self highest_id w2))
                  else (Ok tt, w2)
              end
          end
      end
  end.
Proof.
  unfold process_messages, catch, bind at 1, lift.
  destruct (get_entity client) as [[channel|]|e]; try reflexivity.
  unfold bind at 1. rewrite get_last_message_id_spec. cbv zeta.
  unfold bind at 1.
  destruct ((if (checkpoint_of (files w !! last_id_file self) =? 0)%Z
             then open_w (output_file self) else ret tt) w) as [[[]|e1] w1];
    [|reflexivity].
  unfold iter_messages. cbn [fst snd]. unfold bind at 1.
  destruct (for_fold _ _ _ w1) as [[h|e2] w2]; [|reflexivity].
  unfold bind at 1.
  destruct (if Nat.leb limit (List.length (history channel)) then None
            else failure channel) as [e3|].
  - reflexivity.
  - unfold ret at 1.
    destruct (h >? checkpoint_of (files w !! last_id_file self))%Z; [|reflexivity].
    rewrite save_last_message_id_spec. reflexivity.
Qed.

(** The loop over the messages and the store that follows it, from the
    world [w1] in which the loop starts. *)
Lemma loop_then_store channel limit last_id w1 :
  let messages := firstn limit (history channel) in
  let highest_id := fold_left Z.max (List.map id messages) last_id in
  exists w2,
    extends (output_file self) w1 w2
    /\ (Forall (fun m => (id m <= last_id)%Z) messages -> w2 = w1)
    /\ match for_fold (process_message self last_id) messages last_id w1 with
       | (Raise _, w2) => (Ok tt, w2)
       | (Ok highest_id, w2) =>
           match snd (iter_messages channel limit) with
           | Some _ => (Ok tt, w2)
           | None =>
               if (highest_id >? last_id)%Z
               then (Ok tt, snd (save_last_message_id self highest_id w2))
               else (Ok tt, w2)
           end
       end
       = (Ok tt,
          match snd (iter_messages channel limit) with
          | Some _ => w2
          | None =>
              if (highest_id >? last_id)%Z
              then snd (save_last_message_id self highest_id w2)
              else w2
          end).
Proof.
  intros messages highest_id.
  destruct (for_fold_extends self last_id messages last_id w1) as [w2 [H [E S]]].
  exists w2. split; [exact E|]. split; [exact S|].
  rewrite H, fold_next_highest by lia. fold highest_id.
  destruct (snd (iter_messages channel limit)); [reflexivity|].
  destruct (highest_id >? last_id)%Z; reflexivity.
Qed.

(** Every run ends without an exception, and leaves the world as it was or
    as [run_leaves] tells. *)
Lemma process_messages_shape client limit w :
  exists w',
    process_messages self client limit w = (Ok tt, w')
    /\ match get_entity client with
       | Ok (Some channel) => run_leaves self channel limit w w'
       | _ => w' = w
       end.
Proof.
  rewrite process_messages_unfold.
  destruct (get_entity client) as [[channel|]|e];
    [|exists w; split; reflexivity..].
  cbv zeta. unfold run_leaves, before_loop.
  set (last_id := checkpoint_of (files w !! last_id_file self)).
  destruct (Z.eqb_spec last_id 0) as [H0|H0].
  - unfold open_w.
    destruct (files w !! output_file self) as [[old|]|] eqn:Eout.
    + destruct (loop_then_store channel limit last_id
                  (set_files (<[output_file self:=Regular EmptyString]> (files w)) w))
        as [w2 [E [S H]]].
      eexists. split; [exact H|]. right. split; [intros [_ ?]; discriminate|].
      exists w2. auto.
    + exists w. split; [reflexivity|]. left. auto.
    + destruct (loop_then_store channel limit last_id
                  (set_files (<[output_file self:=Regular EmptyString]> (files w)) w))
        as [w2 [E [S H]]].
      eexists. split; [exact H|]. right. split; [intros [_ ?]; discriminate|].
      exists w2. auto.
  - unfold ret at 1.
    destruct (loop_then_store channel limit last_id w) as [w2 [E [S H]]].
    eexists. split; [exact H|]. right. split; [tauto|]. exists w2. auto.
Qed.

End Runs.

Lemma checkpoint_of_str n : checkpoint_of (Some (Regular (str_of_int n))) = n.
Proof.
  unfold checkpoint_of. now rewrite strip_str_of_int, int_of_str_of_int.
Qed.

Lemma extends_not_denied out w1 w2 p :
  extends out w1 w2 ->
  files w1 !! p <> Some Denied -> files w2 !! p <> Some Denied.
Proof.
  intros [O D _ _] H. destruct (decide (p = out)) as [->|Hne].
  - now rewrite D.
  - now rewrite O.
Qed.

Lemma Forall_map_id (l : list Telegram.Message) (h : Z) :
  Forall (fun x => (x <= h)%Z) (List.map Telegram.id l) ->
  Forall (fun m => (Telegram.id m <= h)%Z) l.
Proof.
  induction l as [|m l IH]; intros H; [constructor|].
  inversion H; subst. constructor; auto.
Qed.

Section Checkpoint.

Import Telegram.

Variable self : TelegramOnionExtractor.

Lemma before_loop_not_denied w p :
  files w !! p <> Some Denied -> files (before_loop self w) !! p <> Some Denied.
Proof.
  intros H. unfold before_loop. destruct (_ =? _)%Z; [|exact H].
  cbn. destruct (decide (p = output_file self)) as [->|Hne].
  - rewrite lookup_insert_eq. discriminate.
  - now rewrite lookup_insert_ne.
Qed.

Lemma before_loop_checkpoint w :
  checkpoint_of (files (before_loop self w) !! last_id_file self)
  = checkpoint_of (files w !! last_id_file self).
Proof.
  unfold before_loop.
  destruct (Z.eqb_spec (checkpoint_of (files w !! last_id_file self)) 0) as [H0|H0];
    [|reflexivity].
  cbn. destruct (decide (last_id_file self = output_file self)) as [Heq|Hne].
  - rewrite Heq, lookup_insert_eq. rewrite Heq in H0. now rewrite H0.
  - now rewrite lookup_insert_ne.
Qed.

Lemma before_loop_other w p :
  p <> output_file self -> files (before_loop self w) !! p = files w !! p.
Proof.
  intros Hne. unfold before_loop. destruct (_ =? _)%Z; [|reflexivity].
  cbn. now rewrite lookup_insert_ne.
Qed.

Lemma iter_messages_no_failure channel limit :
  failure channel = None -> snd (iter_messages channel limit) = None.
Proof. intros H. unfold iter_messages. cbn. rewrite H. now destruct (Nat.leb _ _). Qed.

(** C2: after a run in which the channel is found, the iteration ends
    without an exception and the two files can be opened, the checkpoint
    that the next run loads is the greatest identifier among the messages
    listed and the checkpoint loaded before, whatever the messages hold:
    a message without a body or without a link counts like one with
    links. No listed identifier is above it, and it is the identifier of
    a listed message as soon as one of them reaches the old checkpoint.
    With no checkpoint and the messages 3, 2 and 1 this is 3
    ([checkpoint_scenario]). *)
Theorem checkpoint_advances_to_max_listed client channel limit w :
  get_entity client = Ok (Some channel) ->
  failure channel = None ->
  files w !! output_file self <> Some Denied ->
  files w !! last_id_file self <> Some Denied ->
  let messages := firstn limit (history channel) in
  exists last_id new_id w',
    get_last_message_id self w = (Ok last_id, w)
    /\ process_messages self client limit w = (Ok tt, w')
    /\ get_last_message_id self w' = (Ok new_id, w')
    /\ new_id = fold_left Z.max (List.map id messages) last_id
    /\ (forall m, In m messages -> (id m <= new_id)%Z)
    /\ ((exists m, In m messages /\ (last_id <= id m)%Z) ->
        exists m, In m messages /\ id m = new_id).
Proof.
  intros Hent Hfail Hout Hlast messages.
  destruct (process_messages_shape self client limit w) as [w' [Hrun Hshape]].
  rewrite Hent in Hshape.
  set (last_id := checkpoint_of (files w !! last_id_file self)).
  set (highest_id := fold_left Z.max (List.map id messages) last_id).
  exists last_id, highest_id, w'.
  split; [apply get_last_message_id_spec|]. split; [exact Hrun|].
  split; [|split; [reflexivity|split]].
  - rewrite get_last_message_id_spec. f_equal. f_equal.
    destruct Hshape as [[_ [Hden _]]|[_ [w2 [Hext [Hskip Hw']]]]]; [congruence|].
    rewrite (iter_messages_no_failure _ _ Hfail) in Hw'.
    fold messages last_id highest_id in Hw', Hskip.
    destruct (Z.gtb_spec highest_id last_id) as [Hgt|Hle].
    + rewrite save_last_message_id_spec in Hw'.
      assert (files w2 !! last_id_file self <> Some Denied) as Hnd.
      { eapply extends_not_denied; [exact Hext|]. now apply before_loop_not_denied. }
      cbn [snd] in Hw'.
      destruct (files w2 !! last_id_file self) as [[d|]|] eqn:E; try congruence;
        subst w'; cbn; rewrite lookup_insert_eq; apply checkpoint_of_str.
    + pose proof (fold_max_ge (List.map id messages) last_id) as Hge.
      fold highest_id in Hge.
      assert (highest_id = last_id) as Heq by lia.
      subst w'. rewrite Hskip.
      * rewrite before_loop_checkpoint. fold last_id. congruence.
      * apply Forall_map_id. apply fold_max_eq_all_le. exact Heq.
  - intros m Hm. apply fold_max_upper. now apply in_map.
  - intros [m [Hm Hle]].
    destruct (fold_max_attained (List.map id messages) last_id) as [Heq|Hin].
    + fold highest_id in Heq. exists m. split; [exact Hm|].
      pose proof (fold_max_upper (List.map id messages) last_id (id m)
                    (in_map id _ _ Hm)) as Hup.
      fold highest_id in Hup. lia.
    + fold highest_id in Hin. apply in_map_iff in Hin as [m' [Hid Hm']].
      exists m'. split; assumption.
Qed.

(** One run rewrites the checkpoint file only with a greater identifier. *)
Lemma run_checkpoint_file client limit w :
  output_file self <> last_id_file self ->
  exists w',
    process_messages self client limit w = (Ok tt, w')
    /\ (files w' !! last_id_file self = files w !! last_id_file self
        \/ exists h,
             (checkpoint_of (files w !! last_id_file self) < h)%Z
             /\ files w' !! last_id_file self = Some (Regular (str_of_int h))).
Proof.
  intros Hne.
  destruct (process_messages_shape self client limit w) as [w' [Hrun Hshape]].
  exists w'. split; [exact Hrun|].
  destruct (get_entity client) as [[channel|]|e]; [|subst w'; now left..].
  destruct Hshape as [[_ [_ ->]]|[_ [w2 [Hext [_ Hw']]]]]; [now left|].
  assert (files w2 !! last_id_file self = files w !! last_id_file self) as Hsame.
  { rewrite (ext_other _ _ _ Hext) by congruence.
    apply before_loop_other. congruence. }
  destruct (snd (iter_messages channel limit)); [subst w'; now left|].
  destruct (Z.gtb_spec
              (fold_left Z.max (List.map id (firstn limit (history channel)))
                 (checkpoint_of (files w !! last_id_file self)))
              (checkpoint_of (files w !! last_id_file self))) as [Hgt|Hle];
    [|subst w'; now left].
  rewrite save_last_message_id_spec in Hw'. cbn [snd] in Hw'.
  destruct (files w2 !! last_id_file self) as [[d|]|] eqn:E.
  - right. eexists. split; [exact Hgt|]. subst w'. cbn. apply lookup_insert_eq.
  - left. subst w'. congruence.
  - right. eexists. split; [exact Hgt|]. subst w'. cbn. apply lookup_insert_eq.
Qed.

Lemma run_checkpoint_le client limit w :
  output_file self <> last_id_file self ->
  exists w',
    process_messages self client limit w = (Ok tt, w')
    /\ (checkpoint_of (files w !! last_id_file self)
        <= checkpoint_of (files w' !! last_id_file self))%Z.
Proof.
  intros Hne. destruct (run_checkpoint_file client limit w Hne) as [w' [Hrun H]].
  exists w'. split; [exact Hrun|].
  destruct H as [->|[h [Hlt ->]]]; [lia|]. rewrite checkpoint_of_str. lia.
Qed.

End Checkpoint.

Section Store.

Import Telegram.

Variable self : TelegramOnionExtractor.

(** The world that [run] leaves is the one it met or the one that
    [process_messages] leaves: the session writes no file. *)
Lemma run_world client w :
  snd (run self client w) = w
  \/ snd (run self client w) = snd (process_messages self client default_limit w).
Proof.
  unfold run, finally, connect, disconnect_client, bind, lift, raise.
  destruct (create client) as [[]|e0]; [|now left].
  destruct (start client) as [[]|e1].
  - right. destruct (process_messages self client default_limit w) as [[[]|e2] w'];
      now destruct (disconnect client).
  - left. now destruct (disconnect client).
Qed.

Lemma run_checkpoint_le' client w :
  output_file self <> last_id_file self ->
  (checkpoint_of (files w !! last_id_file self)
   <= checkpoint_of (files (snd (run self client w)) !! last_id_file self))%Z.
Proof.
  intros Hne. destruct (run_world client w) as [->| ->]; [lia|].
  destruct (run_checkpoint_le self client default_limit w Hne) as [w' [-> H]].
  exact H.
Qed.

Lemma after_runs_checkpoint_le clients : forall w,
  output_file self <> last_id_file self ->
  (checkpoint_of (files w !! last_id_file self)
   <= checkpoint_of (files (after_runs self clients w) !! last_id_file self))%Z.
Proof.
  induction clients as [|c cs IH]; intros w Hne; cbn [after_runs]; [lia|].
  etransitivity; [apply (run_checkpoint_le' c w Hne)|]. now apply IH.
Qed.

(** C3: over any sequence of runs, the value that
    [get_last_message_id] loads never decreases, the output file and the
    checkpoint file being two paths; and a run leaves the checkpoint file
    as it was, or rewrites it with an identifier strictly greater than the
    value loaded before. *)
Theorem checkpoint_never_decreases clients w :
  output_file self <> last_id_file self ->
  exists before after,
    get_last_message_id self w = (Ok before, w)
    /\ get_last_message_id self (after_runs self clients w)
       = (Ok after, after_runs self clients w)
    /\ (before <= after)%Z
    /\ forall client,
         files (snd (run self client w)) !! last_id_file self
         = files w !! last_id_file self
         \/ exists highest_id,
              (before < highest_id)%Z
              /\ files (snd (run self client w)) !! last_id_file self
                 = Some (Regular (str_of_int highest_id)).
Proof.
  intros Hne. do 2 eexists.
  split; [apply get_last_message_id_spec|].
  split; [apply get_last_message_id_spec|].
  split; [now apply after_runs_checkpoint_le|].
  intros client. destruct (run_world client w) as [->| ->]; [now left|].
  destruct (run_checkpoint_file self client default_limit w Hne) as [w' [-> H]].
  exact H.
Qed.

(** C7: [get_last_message_id] always returns and never raises, and
    it leaves the world as it was. It returns 0 when the file is absent,
    when it cannot be read and when its text is no integer, and the
    integer that the text denotes otherwise; in particular it returns [n]
    for the text [str(n)]. *)
Theorem get_last_message_id_total w :
  (exists n, get_last_message_id self w = (Ok n, w))
  /\ (files w !! last_id_file self = None ->
      get_last_message_id self w = (Ok 0%Z, w))
  /\ (files w !! last_id_file self = Some Denied ->
      get_last_message_id self w = (Ok 0%Z, w))
  /\ (forall data e,
        files w !! last_id_file self = Some (Regular data) ->
        int_of_str (strip data) = Raise e ->
        get_last_message_id self w = (Ok 0%Z, w))
  /\ (forall data n,
        files w !! last_id_file self = Some (Regular data) ->
        int_of_str (strip data) = Ok n ->
        get_last_message_id self w = (Ok n, w))
  /\ (forall n,
        files w !! last_id_file self = Some (Regular (str_of_int n)) ->
        get_last_message_id self w = (Ok n, w)).
Proof.
  rewrite get_last_message_id_spec. repeat split.
  - eexists. reflexivity.
  - now intros ->.
  - now intros ->.
  - intros data e -> H. cbn. now rewrite H.
  - intros data n -> H. cbn. now rewrite H.
  - intros n ->. now rewrite checkpoint_of_str.
Qed.

(** C8: for every identifier, [save_last_message_id] followed by
    [get_last_message_id] on the same path gives the identifier back,
    when the path can be opened. *)
Theorem save_then_get_last_message_id message_id w :
  files w !! last_id_file self <> Some Denied ->
  exists w',
    save_last_message_id self message_id w = (Ok tt, w')
    /\ get_last_message_id self w' = (Ok message_id, w').
Proof.
  intros Hnd. rewrite save_last_message_id_spec. eexists. split; [reflexivity|].
  rewrite get_last_message_id_spec.
  destruct (files w !! last_id_file self) as [[d|]|]; try congruence;
    cbn; rewrite lookup_insert_eq, checkpoint_of_str; reflexivity.
Qed.

Lemma run_open_step message_id w :
  files w !! last_id_file self <> Some Denied ->
  run_steps (firstn 1 (save_steps self message_id)) w
  = (Ok tt, set_files (<[last_id_file self := Regular EmptyString]> (files w)) w).
Proof.
  intros Hnd. unfold run_steps, save_steps. cbn [firstn for_each].
  unfold bind, open_w, ret.
  destruct (files w !! last_id_file self) as [[d|]|]; congruence.
Qed.

Lemma run_save_steps message_id w :
  files w !! last_id_file self <> Some Denied ->
  run_steps (save_steps self message_id) w
  = (Ok tt,
     set_files (<[last_id_file self := Regular (str_of_int message_id)]> (files w)) w).
Proof.
  intros Hnd. unfold run_steps, save_steps. cbn [for_each].
  unfold bind, open_w, write_end, ret.
  destruct (files w !! last_id_file self) as [[d|]|]; try congruence;
    cbn; rewrite lookup_insert_eq, insert_insert_eq; reflexivity.
Qed.

(** C6 (as amended): [save_last_message_id] writes in place. The
    checkpoint file holds what it held before the opening, is empty
    between the opening and the write, and holds the decimal text of the
    identifier after the write; a run that starts from the empty file
    loads 0. *)
Theorem save_last_message_id_not_atomic message_id w :
  files w !! last_id_file self <> Some Denied ->
  crash_after self 0 message_id w = w
  /\ files (crash_after self 1 message_id w) !! last_id_file self
     = Some (Regular EmptyString)
  /\ get_last_message_id self (crash_after self 1 message_id w)
     = (Ok 0%Z, crash_after self 1 message_id w)
  /\ files (crash_after self 2 message_id w) !! last_id_file self
     = Some (Regular (str_of_int message_id))
  /\ snd (save_last_message_id self message_id w) = crash_after self 2 message_id w.
Proof.
  intros Hnd.
  assert (files (crash_after self 1 message_id w) !! last_id_file self
          = Some (Regular EmptyString)) as H1.
  { unfold crash_after. rewrite run_open_step by assumption.
    cbn. apply lookup_insert_eq. }
  assert (crash_after self 2 message_id w
          = set_files (<[last_id_file self := Regular (str_of_int message_id)]>
                         (files w)) w) as H2.
  { unfold crash_after. change (firstn 2 (save_steps self message_id))
      with (save_steps self message_id).
    now rewrite run_save_steps. }
  split; [reflexivity|]. split; [exact H1|]. split.
  { rewrite get_last_message_id_spec, H1. reflexivity. }
  split.
  - rewrite H2. cbn. apply lookup_insert_eq.
  - rewrite H2. unfold save_last_message_id, catch.
    now rewrite run_save_steps.
Qed.

(** C9: [extract_onion_links] builds one link per match of the pattern
    from the three groups, protocol, host and path, and puts [http://]
    for a protocol that is missing; for the text of the scenario it
    returns the single link [http://abc123xyz.onion/page?x=1]. *)
Theorem extract_onion_links_rebuilds_url :
  extract_onion_links self (Some "visit http://abc123xyz.onion/page?x=1 now")
  = ["http://abc123xyz.onion/page?x=1"]
  /\ extract_onion_links self (Some "mirror at abc123xyz.onion today")
     = ["http://abc123xyz.onion"]
  /\ forall text,
       extract_onion_links self (Some text)
       = List.map
           (fun m =>
              let '(protocol, host, path) := m in
              (if is_empty protocol then "http://" else protocol)
              ++ host ++ ".onion" ++ path)
           (onion_findall text).
Proof.
  split; [reflexivity|]. split; [reflexivity|].
  intros text. unfold extract_onion_links.
  destruct text as [|c text]; [reflexivity|]. cbn [is_empty].
  rewrite fold_left_append_map
    with (g := fun m : string * string * string =>
                 let '(protocol, host, path) := m in
                 (if is_empty protocol then "http://" else protocol)
                 ++ host ++ ".onion" ++ path).
  - reflexivity.
  - intros acc [[m0 m1] m2]. do 3 f_equal.
    rewrite append_assoc. destruct m2; reflexivity.
Qed.

End Store.

(** * The two pipelines and their files *)

Lemma get_archive_paste_ids_world site w :
  exists r, Pastebin.get_archive_paste_ids site w = (r, w).
Proof.
  unfold Pastebin.get_archive_paste_ids, catch_only, bind, lift, ret.
  destruct (Pastebin.archive site) as [hrefs|e]; [eexists; reflexivity|].
  destruct (Pastebin.is_request_exception e); eexists; reflexivity.
Qed.

Lemma get_archive_paste_ids_failed site w :
  Pastebin.archive site = Raise RequestException ->
  Pastebin.get_archive_paste_ids site w = (Ok [], w).
Proof.
  intros H. unfold Pastebin.get_archive_paste_ids, catch_only, bind, lift.
  now rewrite H.
Qed.

Lemma save_result_appends (self : Pastebin.PastebinCrawler) result w old :
  files w !! Pastebin.output_file self = Some (Regular old) ->
  exists line w',
    Pastebin.save_result self result w = (Ok tt, w')
    /\ files w' !! Pastebin.output_file self = Some (Regular (old ++ line))
    /\ forall p, p <> Pastebin.output_file self -> files w' !! p = files w !! p.
Proof.
  intros Hold. unfold Pastebin.save_result.
  destruct result as [[|kv d]|].
  - exists EmptyString, w. rewrite append_empty_r. auto.
  - unfold bind, open_a, write_end. rewrite Hold. cbn. rewrite Hold.
    do 2 eexists. split; [reflexivity|]. cbn. split.
    + apply lookup_insert_eq.
    + intros p Hp. now rewrite lookup_insert_ne.
  - exists EmptyString, w. rewrite append_empty_r. auto.
Qed.

Lemma save_link_appends (self : Telegram.TelegramOnionExtractor) url w old :
  files w !! Telegram.output_file self = Some (Regular old) ->
  exists line w',
    Telegram.save_link self url w = (Ok tt, w')
    /\ files w' !! Telegram.output_file self = Some (Regular (old ++ line))
    /\ forall p, p <> Telegram.output_file self -> files w' !! p = files w !! p.
Proof.
  intros Hold. destruct (save_link_extends self url w) as [w' [H [O _ P _]]].
  destruct (P old Hold) as [line Hline].
  exists line, w'. auto.
Qed.

Section Pipelines.

Variable lower : string -> string.
Variable word : ascii -> bool.

Lemma open_w_emptied path w :
  files w !! path <> Some Denied ->
  open_w path w = (Ok tt, emptied path w)
  /\ open_w path (emptied path w) = (Ok tt, emptied path w).
Proof.
  intros Hnd. unfold open_w, emptied. cbn. rewrite lookup_insert_eq, insert_insert_eq.
  destruct (files w !! path) as [[d|]|]; try congruence; split; reflexivity.
Qed.

Lemma pastebin_run_empties self site w ids :
  Pastebin.get_archive_paste_ids site w = (Ok ids, w) ->
  ids <> [] ->
  files w !! Pastebin.output_file self <> Some Denied ->
  Pastebin.run lower word self site w
  = Pastebin.run lower word self site (emptied (Pastebin.output_file self) w).
Proof.
  intros Hids Hne Hnd. unfold Pastebin.run.
  destruct (get_archive_paste_ids_world site (emptied (Pastebin.output_file self) w))
    as [r Hr].
  assert (r = Ok ids) as ->.
  { revert Hids Hr.
    unfold Pastebin.get_archive_paste_ids, catch_only, bind, lift, ret.
    destruct (Pastebin.archive site) as [hrefs|e]; [congruence|].
    destruct (Pastebin.is_request_exception e); congruence. }
  rewrite (bind_ok _ _ _ _ _ Hids), (bind_ok _ _ _ _ _ Hr).
  destruct ids as [|i ids]; [congruence|].
  destruct (open_w_emptied _ w Hnd) as [H1 H2].
  now rewrite (bind_ok _ _ _ _ _ H1), (bind_ok _ _ _ _ _ H2).
Qed.

Lemma pastebin_run_no_ids self site w :
  Pastebin.get_archive_paste_ids site w = (Ok [], w) ->
  Pastebin.run lower word self site w = (Ok tt, w).
Proof. intros H. unfold Pastebin.run, bind. now rewrite H. Qed.

Import Telegram.

Lemma telegram_run_empties self client channel limit w :
  get_entity client = Ok (Some channel) ->
  output_file self <> last_id_file self ->
  get_last_message_id self w = (Ok 0%Z, w) ->
  files w !! output_file self <> Some Denied ->
  process_messages self client limit w
  = process_messages self client limit (emptied (output_file self) w).
Proof.
  intros Hent Hne Hget Hnd. rewrite get_last_message_id_spec in Hget.
  injection Hget as H0.
  rewrite !process_messages_unfold, Hent. cbv zeta.
  assert (files (emptied (output_file self) w) !! last_id_file self
          = files w !! last_id_file self) as ->.
  { unfold emptied. cbn. rewrite lookup_insert_ne; congruence. }
  rewrite H0. cbn [Z.eqb].
  destruct (open_w_emptied _ w Hnd) as [-> ->]. reflexivity.
Qed.

End Pipelines.

Section Effects.

Variable lower : string -> string.
Variable word : ascii -> bool.

Import Telegram.

Lemma process_messages_keeps_prefix self client limit w last_id old :
  output_file self <> last_id_file self ->
  get_last_message_id self w = (Ok last_id, w) ->
  last_id <> 0%Z ->
  files w !! output_file self = Some (Regular old) ->
  exists new w',
    process_messages self client limit w = (Ok tt, w')
    /\ files w' !! output_file self = Some (Regular (old ++ new)).
Proof.
  intros Hne Hget H0 Hold. rewrite get_last_message_id_spec in Hget.
  injection Hget as Hlast.
  destruct (process_messages_shape self client limit w) as [w' [Hrun Hshape]].
  assert (w' = w -> exists new w'0,
            (Ok tt, w') = (Ok tt, w'0)
            /\ files w'0 !! output_file self = Some (Regular (old ++ new))) as Hsame.
  { intros ->. exists EmptyString, w. now rewrite append_empty_r. }
  rewrite Hrun.
  destruct (get_entity client) as [[channel|]|e]; [|now apply Hsame..].
  destruct Hshape as [[_ [_ Hw']]|[_ [w2 [Hext [_ Hw']]]]]; [now apply Hsame|].
  assert (before_loop self w = w) as Hb.
  { unfold before_loop. rewrite Hlast. now destruct (Z.eqb_spec last_id 0). }
  rewrite Hb in Hext. destruct (ext_prefix _ _ _ Hext old Hold) as [new Hnew].
  exists new, w'. split; [reflexivity|].
  destruct (snd (iter_messages channel limit)); [now subst w'|].
  destruct (_ >? _)%Z; [|now subst w'].
  rewrite save_last_message_id_spec in Hw'. cbn [snd] in Hw'.
  destruct (files w2 !! last_id_file self) as [[d|]|]; subst w'; cbn;
    try rewrite lookup_insert_ne by congruence; exact Hnew.
Qed.

(** C4 (as amended): [save_result] and [save_link] only append: after a
    call the output file holds what it held, followed by the new line,
    and no other file has changed. A run of the extractor that loads a
    checkpoint other than 0 keeps what the output file held as a prefix.
    A run of the extractor that loads 0 and finds the channel, and a run
    of the crawler that lists at least one paste, go on as if the output
    file had been empty: what it held plays no part. *)
Theorem sink_appends_between_truncations :
  (forall (self : Pastebin.PastebinCrawler) result w old,
     files w !! Pastebin.output_file self = Some (Regular old) ->
     exists line w',
       Pastebin.save_result self result w = (Ok tt, w')
       /\ files w' !! Pastebin.output_file self = Some (Regular (old ++ line))
       /\ forall p, p <> Pastebin.output_file self -> files w' !! p = files w !! p)
  /\ (forall (self : TelegramOnionExtractor) url w old,
        files w !! output_file self = Some (Regular old) ->
        exists line w',
          save_link self url w = (Ok tt, w')
          /\ files w' !! output_file self = Some (Regular (old ++ line))
          /\ forall p, p <> output_file self -> files w' !! p = files w !! p)
  /\ (forall (self : TelegramOnionExtractor) client limit w last_id old,
        output_file self <> last_id_file self ->
        get_last_message_id self w = (Ok last_id, w) ->
        last_id <> 0%Z ->
        files w !! output_file self = Some (Regular old) ->
        exists new w',
          process_messages self client limit w = (Ok tt, w')
          /\ files w' !! output_file self = Some (Regular (old ++ new)))
  /\ (forall (self : TelegramOnionExtractor) client channel limit w,
        get_entity client = Ok (Some channel) ->
        output_file self <> last_id_file self ->
        get_last_message_id self w = (Ok 0%Z, w) ->
        files w !! output_file self <> Some Denied ->
        process_messages self client limit w
        = process_messages self client limit (emptied (output_file self) w))
  /\ (forall (self : Pastebin.PastebinCrawler) site w paste_ids,
        Pastebin.get_archive_paste_ids site w = (Ok paste_ids, w) ->
        paste_ids <> [] ->
        files w !! Pastebin.output_file self <> Some Denied ->
        Pastebin.run lower word self site w
        = Pastebin.run lower word self site (emptied (Pastebin.output_file self) w)).
Proof.
  split; [exact save_result_appends|].
  split; [exact save_link_appends|].
  split; [exact process_messages_keeps_prefix|].
  split; [exact telegram_run_empties|].
  exact (pastebin_run_empties lower word).
Qed.

Lemma process_messages_nothing_listed self client channel limit w :
  get_entity client = Ok (Some channel) ->
  firstn limit (history channel) = [] ->
  exists w',
    process_messages self client limit w = (Ok tt, w')
    /\ (w' = w \/ w' = before_loop self w).
Proof.
  intros Hent Hnil.
  destruct (process_messages_shape self client limit w) as [w' [Hrun Hshape]].
  exists w'. split; [exact Hrun|]. rewrite Hent in Hshape.
  destruct Hshape as [[_ [_ Hw']]|[_ [w2 [_ [Hskip Hw']]]]]; [now left|].
  right. rewrite Hnil in Hskip, Hw'. rewrite (Hskip ltac:(constructor)) in Hw'.
  cbn [List.map fold_left] in Hw'. rewrite Z.gtb_ltb, Z.ltb_irrefl in Hw'.
  now destruct (snd (iter_messages channel limit)).
Qed.

Lemma process_messages_failed_listing self client channel limit w e :
  get_entity client = Ok (Some channel) ->
  snd (iter_messages channel limit) = Some e ->
  output_file self <> last_id_file self ->
  exists w',
    process_messages self client limit w = (Ok tt, w')
    /\ files w' !! last_id_file self = files w !! last_id_file self.
Proof.
  intros Hent Hfail Hne.
  destruct (process_messages_shape self client limit w) as [w' [Hrun Hshape]].
  exists w'. split; [exact Hrun|]. rewrite Hent in Hshape.
  destruct Hshape as [[_ [_ ->]]|[_ [w2 [Hext [_ Hw']]]]]; [reflexivity|].
  rewrite Hfail in Hw'. subst w'.
  rewrite (ext_other _ _ _ Hext) by congruence.
  apply before_loop_other. congruence.
Qed.

End Effects.

(** * Concrete runs *)

Example check_keywords_scenario :
  Pastebin.check_keywords ascii_lower ascii_word scenario_crawler (Some scenario_body)
  = ["bitcoin"; "t.me"].
Proof. reflexivity. Qed.

Lemma check_keywords_includes_witness :
  scenario_body <> EmptyString
  /\ In "t.me" (Pastebin.keywords scenario_crawler)
  /\ is_substring (ascii_lower "t.me") (ascii_lower scenario_body) = true
  /\ In "t.me"
       (Pastebin.check_keywords ascii_lower ascii_word scenario_crawler
          (Some scenario_body)).
Proof.
  assert (scenario_body <> EmptyString) as H1 by discriminate.
  assert (In "t.me" (Pastebin.keywords scenario_crawler)) as H2
    by (right; left; reflexivity).
  assert (is_substring (ascii_lower "t.me") (ascii_lower scenario_body) = true) as H3
    by reflexivity.
  split; [exact H1|]. split; [exact H2|]. split; [exact H3|].
  exact (check_keywords_includes_substring_match ascii_lower ascii_word scenario_crawler
           scenario_body "t.me" H1 H2 H3).
Defined.

Lemma check_keywords_empty_body_counterexample :
  In EmptyString (Pastebin.keywords blank_crawler)
  /\ is_substring (ascii_lower EmptyString) (ascii_lower EmptyString) = true
  /\ ~ In EmptyString
         (Pastebin.check_keywords ascii_lower ascii_word blank_crawler
            (Some EmptyString)).
Proof.
  split; [left; reflexivity|]. split; [reflexivity|]. intros [].
Qed.

Lemma check_keywords_filter_witness :
  scenario_body <> EmptyString
  /\ Pastebin.check_keywords ascii_lower ascii_word scenario_crawler
       (Some scenario_body)
     = substring_filter ascii_lower (Pastebin.keywords scenario_crawler) scenario_body.
Proof.
  assert (scenario_body <> EmptyString) as H1 by discriminate.
  split; [exact H1|].
  exact (check_keywords_is_substring_filter ascii_lower ascii_word scenario_crawler
           scenario_body H1).
Defined.

Lemma check_keywords_filter_counterexample :
  Pastebin.check_keywords ascii_lower ascii_word blank_crawler (Some EmptyString) = []
  /\ substring_filter ascii_lower (Pastebin.keywords blank_crawler) EmptyString
     = [EmptyString].
Proof. split; reflexivity. Qed.

Example checkpoint_scenario :
  let w' := snd (Telegram.process_messages Telegram.init scenario_client
                   Telegram.default_limit (world_of ∅)) in
  files w' !! "onion_links.jsonl" = Some (Regular EmptyString)
  /\ files w' !! "last_message_id.txt" = Some (Regular "3")
  /\ Telegram.get_last_message_id Telegram.init w' = (Ok 3%Z, w').
Proof. vm_compute. repeat split. Qed.

Lemma checkpoint_advances_witness :
  Telegram.get_entity scenario_client = Ok (Some scenario_channel)
  /\ Telegram.failure scenario_channel = None
  /\ files (world_of ∅) !! Telegram.output_file Telegram.init <> Some Denied
  /\ files (world_of ∅) !! Telegram.last_id_file Telegram.init <> Some Denied
  /\ exists last_id new_id w',
       Telegram.get_last_message_id Telegram.init (world_of ∅)
       = (Ok last_id, world_of ∅)
       /\ Telegram.process_messages Telegram.init scenario_client
            Telegram.default_limit (world_of ∅) = (Ok tt, w')
       /\ Telegram.get_last_message_id Telegram.init w' = (Ok new_id, w')
       /\ new_id
          = fold_left Z.max
              (List.map Telegram.id
                 (firstn Telegram.default_limit (Telegram.history scenario_channel)))
              last_id
       /\ (forall m,
             In m (firstn Telegram.default_limit (Telegram.history scenario_channel)) ->
             (Telegram.id m <= new_id)%Z)
       /\ ((exists m,
              In m (firstn Telegram.default_limit (Telegram.history scenario_channel))
              /\ (last_id <= Telegram.id m)%Z) ->
           exists m,
             In m (firstn Telegram.default_limit (Telegram.history scenario_channel))
             /\ Telegram.id m = new_id).
Proof.
  assert (files (world_of ∅) !! Telegram.output_file Telegram.init <> Some Denied)
    as H1 by (vm_compute; discriminate).
  assert (files (world_of ∅) !! Telegram.last_id_file Telegram.init <> Some Denied)
    as H2 by (vm_compute; discriminate).
  split; [reflexivity|]. split; [reflexivity|].
  split; [exact H1|]. split; [exact H2|].
  exact (checkpoint_advances_to_max_listed Telegram.init scenario_client
           scenario_channel Telegram.default_limit (world_of ∅)
           eq_refl eq_refl H1 H2).
Defined.

Lemma checkpoint_never_decreases_witness :
  Telegram.output_file Telegram.init <> Telegram.last_id_file Telegram.init
  /\ exists before after,
       Telegram.get_last_message_id Telegram.init later_world = (Ok before, later_world)
       /\ Telegram.get_last_message_id Telegram.init
            (Telegram.after_runs Telegram.init [scenario_client; scenario_client] later_world)
          = (Ok after,
             Telegram.after_runs Telegram.init [scenario_client; scenario_client] later_world)
       /\ (before <= after)%Z
       /\ forall client,
            files (snd (Telegram.run Telegram.init client later_world))
              !! Telegram.last_id_file Telegram.init
            = files later_world !! Telegram.last_id_file Telegram.init
            \/ exists highest_id,
                 (before < highest_id)%Z
                 /\ files (snd (Telegram.run Telegram.init client later_world))
                      !! Telegram.last_id_file Telegram.init
                    = Some (Regular (str_of_int highest_id)).
Proof.
  assert (Telegram.output_file Telegram.init <> Telegram.last_id_file Telegram.init)
    as H by discriminate.
  split; [exact H|].
  exact (checkpoint_never_decreases Telegram.init
           [scenario_client; scenario_client] later_world H).
Defined.

Lemma save_then_get_witness :
  files later_world !! Telegram.last_id_file Telegram.init <> Some Denied
  /\ exists w',
       Telegram.save_last_message_id Telegram.init 7 later_world = (Ok tt, w')
       /\ Telegram.get_last_message_id Telegram.init w' = (Ok 7%Z, w').
Proof.
  assert (files later_world !! Telegram.last_id_file Telegram.init <> Some Denied)
    as H by (vm_compute; discriminate).
  split; [exact H|].
  exact (save_then_get_last_message_id Telegram.init 7 later_world H).
Defined.

Lemma save_not_atomic_witness :
  files later_world !! Telegram.last_id_file Telegram.init <> Some Denied
  /\ crash_after Telegram.init 0 7 later_world = later_world
  /\ files (crash_after Telegram.init 1 7 later_world)
       !! Telegram.last_id_file Telegram.init = Some (Regular EmptyString)
  /\ Telegram.get_last_message_id Telegram.init (crash_after Telegram.init 1 7 later_world)
     = (Ok 0%Z, crash_after Telegram.init 1 7 later_world)
  /\ files (crash_after Telegram.init 2 7 later_world)
       !! Telegram.last_id_file Telegram.init = Some (Regular (str_of_int 7))
  /\ snd (Telegram.save_last_message_id Telegram.init 7 later_world)
     = crash_after Telegram.init 2 7 later_world.
Proof.
  assert (files later_world !! Telegram.last_id_file Telegram.init <> Some Denied)
    as H by (vm_compute; discriminate).
  split; [exact H|].
  exact (save_last_message_id_not_atomic Telegram.init 7 later_world H).
Defined.

(** The checkpoint held 5 and the script was saving 7 when it died after
    the opening of the file: the file holds neither, and the next run
    reads 0. *)
Lemma save_crash_counterexample :
  let w1 := crash_after Telegram.init 1 7 later_world in
  files later_world !! "last_message_id.txt" = Some (Regular "5")
  /\ files w1 !! "last_message_id.txt" = Some (Regular EmptyString)
  /\ files w1 !! "last_message_id.txt" <> Some (Regular "5")
  /\ files w1 !! "last_message_id.txt" <> Some (Regular "7")
  /\ Telegram.get_last_message_id Telegram.init later_world = (Ok 5%Z, later_world)
  /\ Telegram.get_last_message_id Telegram.init w1 = (Ok 0%Z, w1).
Proof. vm_compute. repeat split; discriminate. Qed.

Lemma run_truncates_counterexample :
  let self := Pastebin.init None "keyword_matches.jsonl" in
  let w' := snd (Pastebin.run ascii_lower ascii_word self quiet_site crawled_world) in
  files crawled_world !! "keyword_matches.jsonl"
  = Some (Regular ("an earlier record" ++ newline))
  /\ files w' !! "keyword_matches.jsonl" = Some (Regular EmptyString).
Proof. vm_compute. split; reflexivity. Qed.

Lemma empty_listing_truncates_counterexample :
  let w' := snd (Telegram.process_messages Telegram.init empty_client
                   Telegram.default_limit first_world) in
  fst (Telegram.iter_messages
         {| Telegram.history := []; Telegram.failure := None |}
         Telegram.default_limit) = []
  /\ files first_world !! "onion_links.jsonl"
     = Some (Regular ("an earlier record" ++ newline))
  /\ files w' !! "onion_links.jsonl" = Some (Regular EmptyString).
Proof. vm_compute. repeat split. Qed.


Lemma sink_appends_witness :
  files later_world !! Telegram.output_file Telegram.init
  = Some (Regular ("an earlier record" ++ newline))
  /\ (exists line w',
        Telegram.save_link Telegram.init "http://abc123xyz.onion" later_world
        = (Ok tt, w')
        /\ files w' !! Telegram.output_file Telegram.init
           = Some (Regular (("an earlier record" ++ newline) ++ line))
        /\ forall p, p <> Telegram.output_file Telegram.init ->
                     files w' !! p = files later_world !! p)
  /\ (exists new w',
        Telegram.process_messages Telegram.init scenario_client
          Telegram.default_limit later_world = (Ok tt, w')
        /\ files w' !! Telegram.output_file Telegram.init
           = Some (Regular (("an earlier record" ++ newline) ++ new))).
Proof.
  assert (files later_world !! Telegram.output_file Telegram.init
          = Some (Regular ("an earlier record" ++ newline))) as Hold
    by reflexivity.
  assert (Telegram.get_last_message_id Telegram.init later_world
          = (Ok 5%Z, later_world)) as Hget by reflexivity.
  assert (Telegram.output_file Telegram.init <> Telegram.last_id_file Telegram.init)
    as Hne by discriminate.
  assert (5%Z <> 0%Z) as H5 by discriminate.
  pose proof (sink_appends_between_truncations ascii_lower ascii_word)
    as [_ [Hlink [Hrun _]]].
  split; [exact Hold|]. split.
  - exact (Hlink Telegram.init "http://abc123xyz.onion" later_world _ Hold).
  - exact (Hrun Telegram.init scenario_client Telegram.default_limit later_world
             5%Z _ Hne Hget H5 Hold).
Defined.

Lemma get_last_message_id_witness :
  files later_world !! Telegram.last_id_file Telegram.init = Some (Regular (str_of_int 5))
  /\ Telegram.get_last_message_id Telegram.init later_world = (Ok 5%Z, later_world)
  /\ files (world_of ∅) !! Telegram.last_id_file Telegram.init = None
  /\ Telegram.get_last_message_id Telegram.init (world_of ∅) = (Ok 0%Z, world_of ∅).
Proof.
  assert (files later_world !! Telegram.last_id_file Telegram.init
          = Some (Regular (str_of_int 5))) as H5 by reflexivity.
  assert (files (world_of ∅) !! Telegram.last_id_file Telegram.init = None) as H0
    by reflexivity.
  pose proof (get_last_message_id_total Telegram.init later_world)
    as [_ [_ [_ [_ [_ Hstr]]]]].
  pose proof (get_last_message_id_total Telegram.init (world_of ∅))
    as [_ [Habsent _]].
  split; [exact H5|]. split; [exact (Hstr 5%Z H5)|].
  split; [exact H0|]. exact (Habsent H0).
Defined.

(** * Further properties of the crawler *)

Lemma ascii_lower_char_idem c : ascii_lower_char (ascii_lower_char c) = ascii_lower_char c.
Proof.
  destruct c as [[|] [|] [|] [|] [|] [|] [|] [|]]; reflexivity.
Qed.

Lemma ascii_lower_idem s : ascii_lower (ascii_lower s) = ascii_lower s.
Proof.
  induction s as [|c s IH]; [reflexivity|].
  cbn [ascii_lower]. now rewrite ascii_lower_char_idem, IH.
Qed.

Lemma ascii_lower_is_empty s : is_empty (ascii_lower s) = is_empty s.
Proof. destruct s; reflexivity. Qed.

Lemma is_empty_true s : is_empty s = true -> s = EmptyString.
Proof. destruct s; [reflexivity|discriminate]. Qed.

Lemma lstrip_char_no_lead ch s : startswith_char ch (lstrip_char ch s) = false.
Proof.
  induction s as [|c s IH]; [reflexivity|].
  cbn [lstrip_char]. destruct (Ascii.eqb c ch) eqn:E; [exact IH|].
  cbn [startswith_char]. exact E.
Qed.

Section Reported.

Variable lower : string -> string.
Variable word : ascii -> bool.

(** X1 ([check_keywords]): every keyword that [check_keywords] returns is a
    configured keyword whose lowercase form occurs in the lowercased text,
    and the text is present and not empty: nothing is reported that is not
    there. *)
Theorem check_keywords_only_occurring self content keyword :
  In keyword (Pastebin.check_keywords lower word self content) ->
  In keyword (Pastebin.keywords self)
  /\ exists text,
       content = Some text /\ text <> EmptyString
       /\ is_substring (lower keyword) (lower text) = true.
Proof.
  intros Hin. destruct content as [text|]; [|destruct Hin].
  destruct text as [|c text]; [destruct Hin|].
  rewrite check_keywords_filter in Hin by discriminate.
  apply filter_In in Hin as [Hk Hs].
  split; [exact Hk|]. exists (String c text). split; [reflexivity|].
  split; [discriminate | exact Hs].
Qed.

(** X2 ([check_keywords]): the letter case of the text plays no part. For a
    case mapping that is idempotent and that maps only the empty text to
    the empty text, [check_keywords] returns the same keywords for a text
    and for its lowercase form. *)
Theorem check_keywords_ignores_case self text :
  (forall s, lower (lower s) = lower s) ->
  (forall s, is_empty (lower s) = is_empty s) ->
  Pastebin.check_keywords lower word self (Some (lower text))
  = Pastebin.check_keywords lower word self (Some text).
Proof.
  intros Hidem Hempty.
  destruct (is_empty text) eqn:E.
  - apply is_empty_true in E. subst text.
    assert (lower EmptyString = EmptyString) as ->.
    { apply is_empty_true. now rewrite Hempty. }
    reflexivity.
  - assert (text <> EmptyString) as Hne by (intros ->; discriminate).
    assert (lower text <> EmptyString) as Hne'.
    { intros H. pose proof (Hempty text) as H'. rewrite H, E in H'. discriminate. }
    rewrite !check_keywords_filter by assumption.
    now rewrite Hidem.
Qed.

End Reported.

(** The loop of [get_archive_paste_ids] on the links found. *)
Lemma paste_ids_loop hrefs : forall acc,
  let ids :=
    fold_left
      (fun paste_ids href =>
         match href with
         | Some h =>
             if negb (is_empty h) && startswith_char "/" h
             then (paste_ids ++ [lstrip_char "/" h])%list
             else paste_ids
         | None => paste_ids
         end) hrefs acc in
  (forall id, In id ids ->
     In id acc
     \/ exists h, In (Some h) hrefs /\ startswith_char "/" h = true
                  /\ id = lstrip_char "/" h)
  /\ (forall h, In (Some h) hrefs -> startswith_char "/" h = true ->
      In (lstrip_char "/" h) ids)
  /\ (forall id, In id acc -> In id ids)
  /\ List.length ids <= List.length acc + List.length hrefs.
Proof.
  induction hrefs as [|href hrefs IH]; intros acc; cbn [fold_left].
  - cbn. split; [auto|]. split; [intros h []|]. split; [auto|lia].
  - specialize (IH (match href with
                    | Some h =>
                        if negb (is_empty h) && startswith_char "/" h
                        then (acc ++ [lstrip_char "/" h])%list
                        else acc
                    | None => acc
                    end)).
    cbv zeta in IH. destruct IH as [I1 [I2 [I3 I4]]].
    repeat split.
    + intros id Hid. destruct (I1 id Hid) as [Hacc|[h [Hh [Hs He]]]].
      * destruct href as [h|]; [|now left].
        destruct (negb (is_empty h) && startswith_char "/" h) eqn:E; [|now left].
        apply in_app_iff in Hacc as [Hacc|[<-|[]]]; [now left|].
        right. exists h. apply andb_true_iff in E as [_ E].
        split; [now left|]. split; [exact E|reflexivity].
      * right. exists h. split; [now right|]. split; assumption.
    + intros h [Hh|Hh] Hs.
      * subst href. apply I3.
        assert (is_empty h = false) as -> by (destruct h; [discriminate|reflexivity]).
        rewrite Hs. cbn. apply in_app_iff. right. now left.
      * now apply I2.
    + intros id Hid. apply I3. destruct href as [h|]; [|exact Hid].
      destruct (negb (is_empty h) && startswith_char "/" h); [|exact Hid].
      apply in_app_iff. now left.
    + cbn [List.length]. destruct href as [h|]; [|lia].
      destruct (negb (is_empty h) && startswith_char "/" h); [|lia].
      rewrite length_app in I4. cbn in I4. lia.
Qed.

(** X3 ([get_archive_paste_ids]): when the archive request succeeds, the
    function returns without changing the world, and the identifiers are
    exactly the links that start with a slash, each without its leading
    slashes; a missing link and a link that starts otherwise are left
    out. No identifier starts with a slash, and there are at most as many
    identifiers as links. *)
Theorem get_archive_paste_ids_from_links site hrefs w :
  Pastebin.archive site = Ok hrefs ->
  exists paste_ids,
    Pastebin.get_archive_paste_ids site w = (Ok paste_ids, w)
    /\ (forall id, In id paste_ids <->
          exists h, In (Some h) hrefs /\ startswith_char "/" h = true
                    /\ id = lstrip_char "/" h)
    /\ (forall id, In id paste_ids -> startswith_char "/" id = false)
    /\ List.length paste_ids <= List.length hrefs.
Proof.
  intros Harch.
  unfold Pastebin.get_archive_paste_ids, catch_only, bind, lift, ret.
  rewrite Harch. eexists. split; [reflexivity|].
  destruct (paste_ids_loop hrefs []) as [I1 [I2 [_ I4]]].
  split; [|split].
  - intros id. split.
    + intros Hid. destruct (I1 id Hid) as [[]|H]. exact H.
    + intros [h [Hh [Hs ->]]]. now apply I2.
  - intros id Hid. destruct (I1 id Hid) as [[]|[h [_ [_ ->]]]].
    apply lstrip_char_no_lead.
  - exact I4.
Qed.

(** What [fetch_paste_content] returns: the text, nothing for a request that
    fails, and the exception for any other one. *)
Lemma fetch_paste_content_world site paste_id w :
  (exists text, Pastebin.raw site paste_id = Ok text
                /\ Pastebin.fetch_paste_content site paste_id w = (Ok (Some text), w))
  \/ (Pastebin.raw site paste_id = Raise RequestException
      /\ Pastebin.fetch_paste_content site paste_id w = (Ok None, w))
  \/ (exists e, Pastebin.raw site paste_id = Raise e
                /\ Pastebin.is_request_exception e = false
                /\ Pastebin.fetch_paste_content site paste_id w = (Raise e, w)).
Proof.
  unfold Pastebin.fetch_paste_content, catch_only, bind, lift, ret.
  destruct (Pastebin.raw site paste_id) as [text|e].
  - left. eauto.
  - destruct e; cbn; try (right; right; eexists; repeat split; reflexivity).
    right; left. split; reflexivity.
Qed.

Section Fetched.

Variable lower : string -> string.
Variable word : ascii -> bool.

(** X4 ([process_paste], [fetch_paste_content]): for a paste whose text was
    fetched, [process_paste] ends without an exception and changes no
    file. It returns a record exactly when the text is not empty and some
    configured keyword occurs in it; the record carries the identifier of
    the paste, its raw URL, the configured keywords that occur in the
    text, and the status pending. *)
Theorem process_paste_reports_matches self site paste_id text w :
  Pastebin.raw site paste_id = Ok text ->
  exists result w',
    Pastebin.process_paste lower word self site paste_id w = (Ok result, w')
    /\ files w' = files w
    /\ (result <> None <->
        text <> EmptyString
        /\ exists keyword,
             In keyword (Pastebin.keywords self)
             /\ is_substring (lower keyword) (lower text) = true)
    /\ forall record, result = Some record ->
         In ("paste_id", JStr paste_id) record
         /\ In ("url", JStr (Pastebin.raw_paste_url paste_id)) record
         /\ In ("keywords_found",
                JList (List.filter
                         (fun k => is_substring (lower k) (lower text))
                         (Pastebin.keywords self))) record
         /\ In ("status", JStr "pending") record.
Proof.
  intros Hraw. unfold Pastebin.process_paste.
  destruct (fetch_paste_content_world site paste_id w)
    as [[t [Ht Hf]]|[[Ht _]|[e [Ht _]]]]; try congruence.
  assert (t = text) as -> by congruence.
  rewrite (bind_ok _ _ _ _ _ Hf).
  destruct text as [|c text].
  - exists None, w. cbn. split; [reflexivity|]. split; [reflexivity|].
    split; [|discriminate]. split; [congruence|]. intros [H _]. congruence.
  - cbn [is_empty].
    rewrite check_keywords_filter by discriminate.
    destruct (List.filter _ (Pastebin.keywords self)) as [|k ks] eqn:Ef.
    + exists None, w. split; [reflexivity|]. split; [reflexivity|].
      split; [|discriminate]. split; [congruence|].
      intros [_ [keyword [Hk Hs]]].
      assert (In keyword []) as [].
      rewrite <- Ef. apply filter_In. split; assumption.
    + unfold bind, utcnow, ret. do 2 eexists.
      split; [reflexivity|]. split; [reflexivity|]. split.
      * split; [|discriminate]. intros _. split; [discriminate|].
        exists k.
        apply (proj1 (filter_In
                 (fun k => is_substring (lower k) (lower (String c text)))
                 k (Pastebin.keywords self))).
        rewrite Ef. now left.
      * intros record [= <-]. cbn. repeat split; auto 10.
Qed.

End Fetched.

Lemma append_cons c (a b : string) : String c a ++ b = String c (a ++ b).
Proof. reflexivity. Qed.

Lemma all_printable_app a b :
  all_printable (a ++ b) = all_printable a && all_printable b.
Proof.
  induction a as [|c a IH]; [reflexivity|].
  rewrite append_cons. cbn [all_printable]. now rewrite IH, andb_assoc.
Qed.

Lemma json_escape_char_printable c : all_printable (json_escape_char c) = true.
Proof.
  destruct c as [[|] [|] [|] [|] [|] [|] [|] [|]]; reflexivity.
Qed.

Lemma json_escape_printable s : all_printable (json_escape s) = true.
Proof.
  induction s as [|c s IH]; [reflexivity|].
  cbn [json_escape]. now rewrite all_printable_app, json_escape_char_printable, IH.
Qed.

Lemma json_string_printable s : all_printable (json_string s) = true.
Proof.
  unfold json_string. now rewrite !all_printable_app, json_escape_printable.
Qed.

Lemma json_join_printable l :
  Forall (fun s => all_printable s = true) l -> all_printable (json_join l) = true.
Proof.
  induction l as [|x l IH]; intros H; [reflexivity|].
  inversion H as [|? ? Hx Hl]; subst. cbn [json_join].
  rewrite all_printable_app, Hx. destruct l as [|y l]; [reflexivity|].
  rewrite all_printable_app. now rewrite (IH Hl).
Qed.

Lemma json_value_printable v : all_printable (json_value v) = true.
Proof.
  destruct v as [s|items]; [apply json_string_printable|].
  unfold json_value. rewrite !all_printable_app, json_join_printable; [reflexivity|].
  apply List.Forall_forall. intros s Hs. apply in_map_iff in Hs as [x [<- _]].
  apply json_string_printable.
Qed.

(** The text of [json.dumps] is printable ASCII: no line break is in it. *)
Lemma json_dumps_printable d : all_printable (json_dumps d) = true.
Proof.
  unfold json_dumps. rewrite !all_printable_app, json_join_printable; [reflexivity|].
  apply List.Forall_forall. intros s Hs. apply in_map_iff in Hs as [[k v] [<- _]].
  cbn [fst snd]. now rewrite !all_printable_app, json_string_printable, json_value_printable.
Qed.

(** X5 ([save_result]): for a result that is not empty and an output file
    that holds [old], [save_result] leaves [old], one record and a line
    break. The record is made of printable ASCII characters only, so it
    holds no line break of its own: one result, one line. *)
Theorem save_result_appends_one_line (self : Pastebin.PastebinCrawler) kv d w old :
  files w !! Pastebin.output_file self = Some (Regular old) ->
  exists record w',
    Pastebin.save_result self (Some (kv :: d)) w = (Ok tt, w')
    /\ files w' !! Pastebin.output_file self = Some (Regular (old ++ record ++ newline))
    /\ all_printable record = true.
Proof.
  intros Hold. unfold Pastebin.save_result, bind, open_a, write_end.
  rewrite Hold. cbn. rewrite Hold.
  exists (json_dumps (kv :: d)). eexists. split; [reflexivity|]. cbn.
  split; [apply lookup_insert_eq | apply json_dumps_printable].
Qed.

(** X8 ([save_link]): for an output file that holds [old], [save_link]
    leaves [old], one record and a line break, whatever the characters of
    the link: the record is made of printable ASCII characters only. The
    clock is read once. *)
Theorem save_link_appends_one_line (self : Telegram.TelegramOnionExtractor) url w old :
  files w !! Telegram.output_file self = Some (Regular old) ->
  exists record w',
    Telegram.save_link self url w = (Ok tt, w')
    /\ files w' !! Telegram.output_file self = Some (Regular (old ++ record ++ newline))
    /\ all_printable record = true
    /\ ticks w' = S (ticks w).
Proof.
  intros Hold. unfold Telegram.save_link, bind, utcnow, catch, open_a, write_end.
  cbn. rewrite Hold. cbn. rewrite Hold.
  eexists. eexists. split; [reflexivity|]. cbn.
  split; [apply lookup_insert_eq|]. split; [apply json_dumps_printable|reflexivity].
Qed.

Section Written.

Variable lower : string -> string.
Variable word : ascii -> bool.

Lemma process_paste_files self site paste_id w r w' :
  Pastebin.process_paste lower word self site paste_id w = (r, w') ->
  files w' = files w.
Proof.
  unfold Pastebin.process_paste, bind.
  destruct (fetch_paste_content_world site paste_id w)
    as [[t [_ ->]]|[[_ ->]|[e [_ [_ ->]]]]].
  - destruct (is_empty t); [now intros [= _ <-]|].
    destruct (Pastebin.check_keywords lower word self (Some t));
      [now intros [= _ <-]|].
    unfold utcnow, ret. now intros [= _ <-].
  - now intros [= _ <-].
  - now intros [= _ <-].
Qed.

Lemma map_io_process_paste_files self site ids : forall w r w',
  map_io (Pastebin.process_paste lower word self site) ids w = (r, w') ->
  files w' = files w.
Proof.
  induction ids as [|i ids IH]; intros w r w'; cbn [map_io].
  - now intros [= _ <-].
  - unfold bind at 1.
    destruct (Pastebin.process_paste lower word self site i w) as [[y|e] w1] eqn:E1.
    + apply process_paste_files in E1. unfold bind at 1.
      destruct (map_io _ ids w1) as [[ys|e] w2] eqn:E2.
      * apply IH in E2. unfold ret. intros [= _ <-]. congruence.
      * apply IH in E2. intros [= _ <-]. congruence.
    + apply process_paste_files in E1. now intros [= _ <-].
Qed.

(** A paste whose text was fetched is processed without an exception. *)
Lemma process_paste_fetched self site paste_id text w :
  Pastebin.raw site paste_id = Ok text ->
  exists result w',
    Pastebin.process_paste lower word self site paste_id w = (Ok result, w').
Proof.
  intros Hraw. unfold Pastebin.process_paste.
  destruct (fetch_paste_content_world site paste_id w)
    as [[t [Ht Hf]]|[[Ht _]|[e [Ht _]]]]; try congruence.
  rewrite (bind_ok _ _ _ _ _ Hf).
  destruct (is_empty t); [do 2 eexists; reflexivity|].
  destruct (Pastebin.check_keywords lower word self (Some t)).
  - do 2 eexists. reflexivity.
  - unfold bind, utcnow, ret. do 2 eexists. reflexivity.
Qed.

(** The workers end without an exception when every request gives a text
    or fails as a request. *)
Lemma map_io_process_paste_ok self site ids : forall w,
  Forall (fun i => (exists text, Pastebin.raw site i = Ok text)
                   \/ Pastebin.raw site i = Raise RequestException) ids ->
  exists results w',
    map_io (Pastebin.process_paste lower word self site) ids w = (Ok results, w').
Proof.
  induction ids as [|i ids IH]; intros w H; cbn [map_io].
  - do 2 eexists. reflexivity.
  - inversion H as [|? ? Hi Hids]; subst.
    assert (exists r w1, Pastebin.process_paste lower word self site i w = (Ok r, w1))
      as [r [w1 E1]].
    { destruct Hi as [[text Ht]|Hf].
      - apply (process_paste_fetched self site i text w Ht).
      - unfold Pastebin.process_paste.
        destruct (fetch_paste_content_world site i w)
          as [[t [Ht _]]|[[_ Hfetch]|[e [Ht [He _]]]]]; try congruence.
        + rewrite (bind_ok _ _ _ _ _ Hfetch). do 2 eexists. reflexivity.
        + rewrite Hf in Ht. injection Ht as <-. discriminate. }
    rewrite (bind_ok _ _ _ _ _ E1).
    destruct (IH w1 Hids) as [rs [w2 E2]].
    rewrite (bind_ok _ _ _ _ _ E2). do 2 eexists. reflexivity.
Qed.

Lemma for_each_save_result (self : Pastebin.PastebinCrawler) results : forall w acc,
  files w !! Pastebin.output_file self = Some (Regular acc) ->
  exists w',
    for_each
      (fun result =>
         if Pastebin.is_false result then ret tt
         else Pastebin.save_result self result) results w = (Ok tt, w')
    /\ files w' !! Pastebin.output_file self
       = Some (Regular (acc ++ join_lines (List.map record_line results)))
    /\ forall p, p <> Pastebin.output_file self -> files w' !! p = files w !! p.
Proof.
  induction results as [|r results IH]; intros w acc Hacc; cbn [for_each].
  - exists w. cbn. rewrite append_empty_r. auto.
  - destruct r as [[|kv d]|]; cbn [Pastebin.is_false].
    + unfold bind at 1, ret at 1. cbn [List.map record_line join_lines].
      destruct (IH w acc Hacc) as [w' [H1 [H2 H3]]]. exists w'. auto.
    + destruct (save_result_appends self (Some (kv :: d)) w acc Hacc)
        as [line [w1 [E1 [F1 O1]]]].
      assert (line = record_line (Some (kv :: d))) as ->.
      { revert E1 F1. unfold Pastebin.save_result, bind, open_a, write_end.
        rewrite Hacc. cbn. rewrite Hacc. intros [= <-]. cbn.
        rewrite lookup_insert_eq. intros [= H]. symmetry.
        eapply String.app_inj. exact H. }
      rewrite (bind_ok _ _ _ _ _ E1).
      destruct (IH w1 _ F1) as [w' [H1 [H2 H3]]]. exists w'.
      split; [exact H1|]. split.
      * rewrite H2. cbn [List.map join_lines]. now rewrite append_assoc.
      * intros p Hp. now rewrite H3, O1.
    + unfold bind at 1, ret at 1. cbn [List.map record_line join_lines].
      destruct (IH w acc Hacc) as [w' [H1 [H2 H3]]]. exists w'. auto.
Qed.

(** X6 ([PastebinCrawler.run]): when the archive lists at least one paste,
    the output file can be opened and every request for a paste gives a
    text or fails as a request, [run] ends without an exception; the
    output file then holds the lines of the results of [process_paste],
    in the order of the archive, and nothing of what it held before; no
    other file is changed. *)
Theorem run_writes_the_matches self site w paste_ids :
  Pastebin.get_archive_paste_ids site w = (Ok paste_ids, w) ->
  paste_ids <> [] ->
  files w !! Pastebin.output_file self <> Some Denied ->
  Forall (fun i => (exists text, Pastebin.raw site i = Ok text)
                   \/ Pastebin.raw site i = Raise RequestException) paste_ids ->
  exists results w1 w',
    map_io (Pastebin.process_paste lower word self site) paste_ids
      (emptied (Pastebin.output_file self) w) = (Ok results, w1)
    /\ Pastebin.run lower word self site w = (Ok tt, w')
    /\ files w' !! Pastebin.output_file self
       = Some (Regular (join_lines (List.map record_line results)))
    /\ forall p, p <> Pastebin.output_file self -> files w' !! p = files w !! p.
Proof.
  intros Hids Hne Hnd Hraw.
  destruct (map_io_process_paste_ok self site paste_ids
              (emptied (Pastebin.output_file self) w) Hraw) as [results [w1 Emap]].
  pose proof (map_io_process_paste_files _ _ _ _ _ _ Emap) as Hfiles.
  assert (files w1 !! Pastebin.output_file self = Some (Regular EmptyString)) as Hout.
  { rewrite Hfiles. unfold emptied. cbn. apply lookup_insert_eq. }
  destruct (for_each_save_result self results w1 EmptyString Hout)
    as [w' [Esave [Fout Fother]]].
  exists results, w1, w'. split; [exact Emap|]. split; [|split].
  - unfold Pastebin.run. rewrite (bind_ok _ _ _ _ _ Hids).
    destruct paste_ids as [|i ids]; [congruence|].
    destruct (open_w_emptied _ w Hnd) as [Hopen _].
    rewrite (bind_ok _ _ _ _ _ Hopen), (bind_ok _ _ _ _ _ Emap). exact Esave.
  - exact Fout.
  - intros p Hp. rewrite Fother by exact Hp. rewrite Hfiles.
    unfold emptied. cbn. now rewrite lookup_insert_ne.
Qed.

(** X7 ([PastebinCrawler.run]): the statement that empties the output file
    is under no [try]. When the archive lists at least one paste and the
    output file cannot be opened, [run] raises [OSError] before any paste
    is fetched, and the world is as it was. *)
Theorem run_raises_without_output self site w paste_ids :
  Pastebin.get_archive_paste_ids site w = (Ok paste_ids, w) ->
  paste_ids <> [] ->
  files w !! Pastebin.output_file self = Some Denied ->
  Pastebin.run lower word self site w = (Raise OSError, w).
Proof.
  intros Hids Hne Hden. unfold Pastebin.run. rewrite (bind_ok _ _ _ _ _ Hids).
  destruct paste_ids as [|i ids]; [congruence|].
  unfold bind, open_w. now rewrite Hden.
Qed.

End Written.

(** * Further properties of the extractor *)

Lemma lstrip_blanks pre s : all_space pre = true -> lstrip (pre ++ s) = lstrip s.
Proof.
  induction pre as [|c pre IH]; intros H; [reflexivity|].
  cbn [all_space] in H. apply andb_true_iff in H as [Hc Hp].
  rewrite append_cons. cbn [lstrip]. rewrite Hc. now apply IH.
Qed.

Lemma rstrip_all_space post : all_space post = true -> rstrip post = EmptyString.
Proof.
  induction post as [|c post IH]; intros H; [reflexivity|].
  cbn [all_space] in H. apply andb_true_iff in H as [Hc Hp].
  cbn [rstrip]. now rewrite (IH Hp), Hc.
Qed.

Lemma rstrip_blanks s post :
  all_space post = true -> rstrip (s ++ post) = rstrip s.
Proof.
  intros H. induction s as [|c s IH].
  - cbn. now apply rstrip_all_space.
  - rewrite append_cons. cbn [rstrip]. now rewrite IH.
Qed.

Lemma lstrip_fixed s : strip s = s -> lstrip s = s.
Proof.
  unfold strip. intros H. destruct s as [|c s]; [reflexivity|].
  cbn [lstrip] in *. destruct (isspace c) eqn:E; [|reflexivity].
  exfalso.
  assert (forall t, String.length (rstrip t) <= String.length t) as Hr.
  { induction t as [|x t IHt]; cbn [rstrip String.length]; [lia|].
    destruct (isspace x && is_empty (rstrip t)); cbn [String.length]; lia. }
  assert (forall t, String.length (lstrip t) <= String.length t) as Hl.
  { induction t as [|x t IHt]; cbn [lstrip String.length]; [lia|].
    destruct (isspace x); cbn [String.length]; lia. }
  pose proof (Hr (lstrip s)) as H1. pose proof (Hl s) as H2.
  rewrite H in H1. cbn [String.length] in H1. lia.
Qed.

(** A text that [strip] leaves alone is what [strip] makes of it between
    blanks. *)
Lemma strip_between_blanks pre s post :
  all_space pre = true -> all_space post = true ->
  strip s = s -> strip (pre ++ s ++ post) = s.
Proof.
  intros Hpre Hpost Hs. unfold strip.
  rewrite (lstrip_blanks pre _ Hpre).
  destruct s as [|c s].
  - change (EmptyString ++ post) with post.
    rewrite <- (append_empty_r post), (lstrip_blanks post _ Hpost). reflexivity.
  - pose proof (lstrip_fixed _ Hs) as Hl. rewrite append_cons.
    cbn [lstrip] in *. destruct (isspace c) eqn:E.
    + exfalso. assert (String.length (lstrip s) <= String.length s) as Hlen.
      { clear. induction s as [|x t IHt]; cbn [lstrip String.length]; [lia|].
        destruct (isspace x); cbn [String.length]; lia. }
      rewrite Hl in Hlen. cbn [String.length] in Hlen. lia.
    + rewrite <- append_cons, (rstrip_blanks _ post Hpost).
      unfold strip in Hs. cbn [lstrip] in Hs. rewrite E in Hs. exact Hs.
Qed.

Lemma fold_max_all_le l h :
  Forall (fun x => (x <= h)%Z) l -> fold_left Z.max l h = h.
Proof.
  induction l as [|x l IH]; intros H; [reflexivity|].
  inversion H as [|? ? Hx Hl]; subst. cbn [fold_left].
  rewrite Z.max_l by lia. now apply IH.
Qed.

Lemma Forall_id_map (l : list Telegram.Message) (h : Z) :
  Forall (fun m => (Telegram.id m <= h)%Z) l ->
  Forall (fun x => (x <= h)%Z) (List.map Telegram.id l).
Proof.
  induction l as [|m l IH]; intros H; [constructor|].
  inversion H; subst. constructor; auto.
Qed.

Section Frame.

Import Telegram.

Variable self : TelegramOnionExtractor.

(** X9 ([get_last_message_id]): blanks and line breaks around the number in
    the checkpoint file are dropped: a file that holds the decimal text
    of [n] between blanks loads as [n]. *)
Theorem get_last_message_id_ignores_blanks w n pre post :
  all_space pre = true -> all_space post = true ->
  files w !! last_id_file self = Some (Regular (pre ++ str_of_int n ++ post)) ->
  get_last_message_id self w = (Ok n, w).
Proof.
  intros Hpre Hpost Hfile. rewrite get_last_message_id_spec, Hfile.
  unfold checkpoint_of.
  rewrite (strip_between_blanks pre _ post Hpre Hpost (strip_str_of_int n)).
  now rewrite int_of_str_of_int.
Qed.

(** X10 ([save_last_message_id]): the checkpoint file is overwritten, not
    appended to: saving [a] and then [b] leaves the world that saving [b]
    alone leaves, also when the file cannot be opened. *)
Theorem save_last_message_id_overwrites a b w :
  snd (save_last_message_id self b (snd (save_last_message_id self a w)))
  = snd (save_last_message_id self b w).
Proof.
  rewrite !save_last_message_id_spec. cbn [snd].
  destruct (files w !! last_id_file self) as [[d|]|] eqn:E.
  - cbn. rewrite lookup_insert_eq. unfold set_files. cbn.
    now rewrite insert_insert_eq.
  - now rewrite E.
  - cbn. rewrite lookup_insert_eq. unfold set_files. cbn.
    now rewrite insert_insert_eq.
Qed.

(** A run ends without an exception, reads no clock that it does not
    give back, and leaves every other file alone. *)
Lemma process_messages_frame client limit w :
  exists w',
    process_messages self client limit w = (Ok tt, w')
    /\ clock w' = clock w
    /\ forall p, p <> output_file self -> p <> last_id_file self ->
                 files w' !! p = files w !! p.
Proof.
  destruct (process_messages_shape self client limit w) as [w' [Hrun Hshape]].
  exists w'. split; [exact Hrun|].
  destruct (get_entity client) as [[channel|]|e]; [|subst w'; auto..].
  destruct Hshape as [[_ [_ ->]]|[_ [w2 [Hext [_ Hw']]]]]; [auto|].
  assert (clock w2 = clock w) as Hclock.
  { rewrite (ext_clock _ _ _ Hext). unfold before_loop.
    now destruct (_ =? _)%Z. }
  assert (forall p, p <> output_file self -> files w2 !! p = files w !! p) as Hother.
  { intros p Hp. rewrite (ext_other _ _ _ Hext) by exact Hp.
    now apply before_loop_other. }
  destruct (snd (iter_messages channel limit)); [subst w'; auto|].
  destruct (_ >? _)%Z; [|subst w'; auto].
  rewrite save_last_message_id_spec in Hw'. cbn [snd] in Hw'.
  destruct (files w2 !! last_id_file self) as [[d|]|]; subst w'; cbn;
    (split; [exact Hclock|]); intros p Hp1 Hp2;
    try rewrite lookup_insert_ne by congruence; now apply Hother.
Qed.

(** A listing with nothing above the checkpoint leaves the world as it
    is. *)
Lemma process_messages_nothing_new client channel limit w last_id :
  get_entity client = Ok (Some channel) ->
  get_last_message_id self w = (Ok last_id, w) ->
  last_id <> 0%Z ->
  Forall (fun m => (id m <= last_id)%Z) (firstn limit (history channel)) ->
  process_messages self client limit w = (Ok tt, w).
Proof.
  intros Hent Hget H0 Hall. rewrite get_last_message_id_spec in Hget.
  injection Hget as Hlast.
  destruct (process_messages_shape self client limit w) as [w' [Hrun Hshape]].
  rewrite Hrun. f_equal. rewrite Hent in Hshape.
  destruct Hshape as [[_ [_ Hw']]|[_ [w2 [_ [Hskip Hw']]]]]; [exact Hw'|].
  rewrite Hlast in Hskip, Hw'. rewrite (Hskip Hall) in Hw'.
  rewrite (fold_max_all_le _ _ (Forall_id_map _ _ Hall)) in Hw'.
  rewrite Z.gtb_ltb, Z.ltb_irrefl in Hw'.
  assert (before_loop self w = w) as Hb.
  { unfold before_loop. rewrite Hlast. now destruct (Z.eqb_spec last_id 0). }
  rewrite Hb in Hw'. now destruct (snd (iter_messages channel limit)).
Qed.

(** X11 ([process_messages]): whatever the client does, a run ends without
    an exception, and it changes no file but the output file and the
    checkpoint file. *)
Theorem process_messages_touches_two_files client limit w :
  exists w',
    process_messages self client limit w = (Ok tt, w')
    /\ clock w' = clock w
    /\ forall p, p <> output_file self -> p <> last_id_file self ->
                 files w' !! p = files w !! p.
Proof. exact (process_messages_frame client limit w). Qed.

(** X12 ([process_messages]): when the channel is found, the checkpoint
    loaded is not zero and no listed message has an identifier above it,
    the run changes nothing: no link is saved again, whatever the texts
    of the messages, and the checkpoint file is not rewritten. *)
Theorem process_messages_skips_processed client channel limit w last_id :
  get_entity client = Ok (Some channel) ->
  get_last_message_id self w = (Ok last_id, w) ->
  last_id <> 0%Z ->
  Forall (fun m => (id m <= last_id)%Z) (firstn limit (history channel)) ->
  process_messages self client limit w = (Ok tt, w).
Proof. exact (process_messages_nothing_new client channel limit w last_id). Qed.

(** X17 ([TelegramOnionExtractor.run], [connect]): the outcome of [run]
    is decided by the session alone, and no exception of
    [process_messages] escapes. When the constructor of the client
    raises, [self.client] is not bound and the [finally] clause raises
    [AttributeError] in place of that exception. Otherwise an exception
    of the disconnection is the one that escapes; without one, [run]
    raises what [client.start()] raised, or ends normally. The world left
    is the one that [process_messages] with the limit of 100 leaves when
    the client was started, and the one met otherwise; no file but the
    output file and the checkpoint file is changed. *)
Theorem run_outcome_is_the_sessions client w :
  run self client w
  = match create client with
    | Raise _ => (Raise AttributeError, w)
    | Ok _ =>
        (match disconnect client, start client with
         | Raise d, _ => Raise d
         | Ok _, Raise e => Raise e
         | Ok _, Ok _ => Ok tt
         end,
         match start client with
         | Ok _ => snd (process_messages self client default_limit w)
         | Raise _ => w
         end)
    end
  /\ clock (snd (run self client w)) = clock w
  /\ forall p, p <> output_file self -> p <> last_id_file self ->
               files (snd (run self client w)) !! p = files w !! p.
Proof.
  destruct (process_messages_frame client default_limit w) as [w' [Hrun [Hc Hf]]].
  assert (run self client w
          = match create client with
            | Raise _ => (Raise AttributeError, w)
            | Ok _ =>
                (match disconnect client, start client with
                 | Raise d, _ => Raise d
                 | Ok _, Raise e => Raise e
                 | Ok _, Ok _ => Ok tt
                 end,
                 match start client with
                 | Ok _ => snd (process_messages self client default_limit w)
                 | Raise _ => w
                 end)
            end) as Heq.
  { unfold run, finally, connect, disconnect_client, bind, lift, raise.
    destruct (create client) as [[]|e0]; [|reflexivity].
    destruct (start client) as [[]|e1].
    - rewrite Hrun. now destruct (disconnect client) as [[]|d].
    - now destruct (disconnect client) as [[]|d]. }
  split; [exact Heq|]. rewrite Heq, Hrun.
  destruct (create client) as [[]|e0]; [|auto].
  destruct (start client) as [[]|e1]; cbn [snd]; auto.
Qed.

End Frame.

Section Reruns.

Import Telegram.

Variable self : TelegramOnionExtractor.

(** A run whose listing ends without an exception, on files that it can
    open: the world it leaves and the checkpoint in it. *)
Lemma run_completed client channel limit w :
  get_entity client = Ok (Some channel) ->
  failure channel = None ->
  files w !! last_id_file self <> Some Denied ->
  ~ (checkpoint_of (files w !! last_id_file self) = 0%Z
     /\ files w !! output_file self = Some Denied) ->
  let last_id := checkpoint_of (files w !! last_id_file self) in
  let messages := firstn limit (history channel) in
  let highest_id := fold_left Z.max (List.map id messages) last_id in
  exists w2 w',
    process_messages self client limit w = (Ok tt, w')
    /\ extends (output_file self) (before_loop self w) w2
    /\ ((highest_id = last_id /\ w2 = before_loop self w /\ w' = w2
         /\ Forall (fun m => (id m <= last_id)%Z) messages)
        \/ ((last_id < highest_id)%Z
            /\ w' = set_files (<[last_id_file self := Regular (str_of_int highest_id)]>
                                 (files w2)) w2))
    /\ checkpoint_of (files w' !! last_id_file self) = highest_id.
Proof.
  intros Hent Hfail Hlast Hok last_id messages highest_id.
  destruct (process_messages_shape self client limit w) as [w' [Hrun Hshape]].
  rewrite Hent in Hshape.
  destruct Hshape as [[H0 [Hden _]]|[_ [w2 [Hext [Hskip Hw']]]]]; [tauto|].
  rewrite (iter_messages_no_failure _ _ Hfail) in Hw'.
  fold messages last_id highest_id in Hw', Hskip.
  exists w2, w'. split; [exact Hrun|]. split; [exact Hext|].
  destruct (Z.gtb_spec highest_id last_id) as [Hgt|Hle].
  - rewrite save_last_message_id_spec in Hw'. cbn [snd] in Hw'.
    assert (files w2 !! last_id_file self <> Some Denied) as Hnd.
    { eapply extends_not_denied; [exact Hext|]. now apply before_loop_not_denied. }
    assert (w' = set_files (<[last_id_file self := Regular (str_of_int highest_id)]>
                              (files w2)) w2) as Hw2.
    { destruct (files w2 !! last_id_file self) as [[d|]|]; congruence. }
    split; [right; split; [lia|exact Hw2]|].
    rewrite Hw2. cbn. rewrite lookup_insert_eq. apply checkpoint_of_str.
  - pose proof (fold_max_ge (List.map id messages) last_id) as Hge.
    fold highest_id in Hge.
    assert (highest_id = last_id) as Heq by lia.
    assert (Forall (fun m => (id m <= last_id)%Z) messages) as Hall.
    { apply Forall_map_id. apply fold_max_eq_all_le. exact Heq. }
    split; [left; auto|].
    subst w'. rewrite (Hskip Hall), before_loop_checkpoint. fold last_id. congruence.
Qed.

Lemma before_loop_twice w :
  checkpoint_of (files w !! last_id_file self) = 0%Z ->
  before_loop self (before_loop self w) = before_loop self w.
Proof.
  intros H0. unfold before_loop at 1. rewrite before_loop_checkpoint, H0.
  cbn [Z.eqb]. unfold before_loop. rewrite H0. cbn [Z.eqb].
  unfold set_files. cbn. now rewrite insert_insert_eq.
Qed.

(** X13 ([process_messages]): a second run over the same listing changes
    nothing. Hypotheses: the channel is found, the listing ends without
    an exception, both files can be opened, and the identifiers of the
    messages are positive. *)
Theorem process_messages_rerun_changes_nothing client channel limit w :
  get_entity client = Ok (Some channel) ->
  failure channel = None ->
  files w !! output_file self <> Some Denied ->
  files w !! last_id_file self <> Some Denied ->
  Forall (fun m => (0 < id m)%Z) (firstn limit (history channel)) ->
  exists w1,
    process_messages self client limit w = (Ok tt, w1)
    /\ process_messages self client limit w1 = (Ok tt, w1).
Proof.
  intros Hent Hfail Hout Hlast Hpos.
  destruct (run_completed client channel limit w Hent Hfail Hlast)
    as [w2 [w1 [Hrun [Hext [Hcase Hcp]]]]]; [tauto|].
  cbv zeta in Hcase, Hcp.
  set (last_id := checkpoint_of (files w !! last_id_file self)) in *.
  set (messages := firstn limit (history channel)) in *.
  set (highest_id := fold_left Z.max (List.map id messages) last_id) in *.
  exists w1. split; [exact Hrun|].
  assert (Forall (fun m => (id m <= highest_id)%Z) messages) as Hup.
  { apply List.Forall_forall. intros m Hm. apply fold_max_upper. now apply in_map. }
  destruct (Z.eq_dec highest_id 0%Z) as [Hz|Hnz].
  - (* the checkpoint stays at zero: no message was listed *)
    assert (messages = []) as Hnil.
    { destruct messages as [|m ms]; [reflexivity|].
      inversion Hpos; subst. inversion Hup; subst. lia. }
    destruct Hcase as [[Heq [Hw2 [Hw1 _]]]|[Hlt _]].
    + assert (w1 = before_loop self w) as -> by congruence.
      assert (last_id = 0%Z) as Hl0 by congruence.
      destruct (process_messages_shape self client limit (before_loop self w))
        as [w3 [Hrun3 Hshape3]].
      rewrite Hrun3. f_equal. rewrite Hent in Hshape3.
      destruct Hshape3 as [[_ [_ Hw3]]|[_ [w4 [_ [Hskip4 Hw3]]]]]; [exact Hw3|].
      fold messages in Hskip4, Hw3. rewrite Hnil in Hskip4, Hw3.
      rewrite (Hskip4 ltac:(constructor)) in Hw3.
      cbn [List.map fold_left] in Hw3. rewrite Z.gtb_ltb, Z.ltb_irrefl in Hw3.
      rewrite (before_loop_twice w Hl0) in Hw3.
      now destruct (snd (iter_messages channel limit)).
    + exfalso. unfold highest_id in Hlt, Hz. rewrite Hnil in Hlt, Hz.
      cbn in Hlt, Hz. lia.
  - apply (process_messages_nothing_new self client channel limit w1 highest_id
             Hent).
    + rewrite get_last_message_id_spec. now rewrite Hcp.
    + exact Hnz.
    + exact Hup.
Qed.

(** X14 ([process_messages], [save_link]): when the output file cannot be
    opened and the checkpoint loaded is not zero, [save_link] swallows
    the error of every link; the run ends without an exception, the
    output file is as it was, and the checkpoint advances all the same
    to the highest identifier listed: the links of these messages are
    not looked for again. *)
Theorem process_messages_drops_links_without_output client channel limit w last_id :
  get_entity client = Ok (Some channel) ->
  failure channel = None ->
  files w !! output_file self = Some Denied ->
  files w !! last_id_file self <> Some Denied ->
  get_last_message_id self w = (Ok last_id, w) ->
  last_id <> 0%Z ->
  exists w',
    process_messages self client limit w = (Ok tt, w')
    /\ files w' !! output_file self = Some Denied
    /\ get_last_message_id self w'
       = (Ok (fold_left Z.max (List.map id (firstn limit (history channel))) last_id),
          w').
Proof.
  intros Hent Hfail Hden Hlast Hget H0.
  rewrite get_last_message_id_spec in Hget. injection Hget as Hl.
  destruct (run_completed client channel limit w Hent Hfail Hlast)
    as [w2 [w' [Hrun [Hext [Hcase Hcp]]]]]; [intros [? _]; congruence|].
  cbv zeta in Hcase, Hcp. rewrite Hl in Hcase, Hcp.
  exists w'. split; [exact Hrun|].
  assert (before_loop self w = w) as Hb.
  { unfold before_loop. rewrite Hl. now destruct (Z.eqb_spec last_id 0). }
  rewrite Hb in Hext.
  assert (files w2 !! output_file self = Some Denied) as Hden2
    by now apply (ext_denied _ _ _ Hext).
  split.
  - destruct Hcase as [[_ [_ [-> _]]]|[_ ->]]; [exact Hden2|].
    cbn. rewrite lookup_insert_ne; [exact Hden2|]. congruence.
  - rewrite get_last_message_id_spec. now rewrite Hcp.
Qed.

End Reruns.

Lemma link_lines_app self clock links1 : forall t links2,
  link_lines self clock t (links1 ++ links2)%list
  = link_lines self clock t links1
    ++ link_lines self clock (t + List.length links1) links2.
Proof.
  induction links1 as [|u l IH]; intros t links2.
  - cbn. now rewrite Nat.add_0_r.
  - cbn [app link_lines List.length].
    replace (t + S (List.length l)) with (S t + List.length l) by lia.
    rewrite IH. symmetry. apply append_assoc.
Qed.

Section Output.

Import Telegram.

Variable self : TelegramOnionExtractor.

Lemma save_link_exact url w acc :
  files w !! output_file self = Some (Regular acc) ->
  exists w',
    save_link self url w = (Ok tt, w')
    /\ wrote self w w' acc (link_record self url (clock w (ticks w)) ++ newline) 1.
Proof.
  intros Hacc. unfold save_link, bind, utcnow, catch, open_a, write_end.
  cbn. rewrite Hacc. cbn. rewrite Hacc.
  eexists. split; [reflexivity|]. unfold wrote. cbn.
  split; [apply lookup_insert_eq|]. split; [lia|]. split; [reflexivity|].
  intros p Hp. now rewrite lookup_insert_ne.
Qed.

Lemma for_each_save_link_exact links : forall w acc,
  files w !! output_file self = Some (Regular acc) ->
  exists w',
    for_each (save_link self) links w = (Ok tt, w')
    /\ wrote self w w' acc (link_lines self (clock w) (ticks w) links) (List.length links).
Proof.
  induction links as [|u links IH]; intros w acc Hacc.
  - exists w. split; [reflexivity|]. unfold wrote. cbn.
    rewrite append_empty_r. repeat split; auto; lia.
  - cbn [for_each].
    destruct (save_link_exact u w acc Hacc) as [w1 [E1 [F1 [T1 [C1 O1]]]]].
    rewrite (bind_ok _ _ _ _ _ E1).
    destruct (IH w1 _ F1) as [w2 [E2 [F2 [T2 [C2 O2]]]]].
    exists w2. split; [exact E2|]. unfold wrote. cbn [link_lines List.length].
    split; [|split; [lia|split; [congruence|]]].
    + rewrite F2, C1, T1, append_assoc.
      now replace (ticks w + 1) with (S (ticks w)) by lia.
    + intros p Hp. now rewrite O2, O1.
Qed.

Lemma process_message_exact last_id highest_id m w acc :
  files w !! output_file self = Some (Regular acc) ->
  exists w',
    process_message self last_id highest_id m w
    = (Ok (next_highest last_id highest_id m), w')
    /\ wrote self w w' acc
         (link_lines self (clock w) (ticks w) (new_links self last_id [m]))
         (List.length (new_links self last_id [m])).
Proof.
  intros Hacc. unfold process_message, next_highest, new_links.
  cbn [flat_map]. rewrite app_nil_r.
  assert (exists w', (Ok tt, w) = (Ok tt, w')
                     /\ wrote self w w' acc (link_lines self (clock w) (ticks w) []) 0)
    as Hnone.
  { exists w. split; [reflexivity|]. unfold wrote. cbn.
    rewrite append_empty_r. repeat split; auto; lia. }
  destruct (id m <=? last_id)%Z.
  - destruct Hnone as [w' [[= <-] H]]. exists w. split; [reflexivity|exact H].
  - unfold bind, catch. destruct (text m) as [t|].
    + destruct t as [|c t].
      * destruct Hnone as [w' [[= <-] H]]. exists w. split; [reflexivity|exact H].
      * cbn [is_empty].
        destruct (for_each_save_link_exact
                    (extract_onion_links self (Some (String c t))) w acc Hacc)
          as [w' [E H]].
        rewrite E. exists w'. split; [reflexivity|exact H].
    + destruct Hnone as [w' [[= <-] H]]. exists w. split; [reflexivity|exact H].
Qed.

Lemma for_fold_exact last_id messages : forall highest_id w acc,
  files w !! output_file self = Some (Regular acc) ->
  exists w',
    for_fold (process_message self last_id) messages highest_id w
    = (Ok (fold_left (next_highest last_id) messages highest_id), w')
    /\ wrote self w w' acc
         (link_lines self (clock w) (ticks w) (new_links self last_id messages))
         (List.length (new_links self last_id messages)).
Proof.
  induction messages as [|m ms IH]; intros h w acc Hacc.
  - exists w. split; [reflexivity|]. unfold wrote. cbn.
    rewrite append_empty_r. repeat split; auto; lia.
  - cbn [for_fold fold_left].
    destruct (process_message_exact last_id h m w acc Hacc)
      as [w1 [E1 [F1 [T1 [C1 O1]]]]].
    rewrite (bind_ok _ _ _ _ _ E1).
    destruct (IH (next_highest last_id h m) w1 _ F1) as [w2 [E2 [F2 [T2 [C2 O2]]]]].
    exists w2. split; [exact E2|].
    assert (new_links self last_id (m :: ms)
            = (new_links self last_id [m] ++ new_links self last_id ms)%list) as ->.
    { unfold new_links. cbn [flat_map]. now rewrite app_nil_r. }
    unfold wrote. rewrite length_app, link_lines_app.
    split; [|split; [lia|split; [congruence|]]].
    + rewrite F2, C1, T1. now rewrite append_assoc.
    + intros p Hp. now rewrite O2, O1.
Qed.

(** A listing that raises: what was yielded before is processed, and the
    checkpoint is not stored. *)
Lemma process_messages_raising_listing client channel limit w last_id old e :
  get_entity client = Ok (Some channel) ->
  snd (iter_messages channel limit) = Some e ->
  output_file self <> last_id_file self ->
  files w !! output_file self = Some (Regular old) ->
  get_last_message_id self w = (Ok last_id, w) ->
  exists w',
    process_messages self client limit w = (Ok tt, w')
    /\ files w' !! last_id_file self = files w !! last_id_file self
    /\ files w' !! output_file self
       = Some (Regular ((if (last_id =? 0)%Z then EmptyString else old)
                        ++ link_lines self (clock w) (ticks w)
                             (new_links self last_id (firstn limit (history channel))))).
Proof.
  intros Hent Hfail Hne Hold Hget.
  rewrite get_last_message_id_spec in Hget. injection Hget as Hl.
  rewrite process_messages_unfold, Hent. cbv zeta. rewrite Hl.
  set (w1 := if (last_id =? 0)%Z
             then set_files (<[output_file self := Regular EmptyString]> (files w)) w
             else w).
  assert ((if (last_id =? 0)%Z then open_w (output_file self) else ret tt) w
          = (Ok tt, w1)) as ->.
  { unfold w1. destruct (last_id =? 0)%Z; [|reflexivity].
    unfold open_w. now rewrite Hold. }
  assert (files w1 !! output_file self
          = Some (Regular (if (last_id =? 0)%Z then EmptyString else old))
          /\ ticks w1 = ticks w /\ clock w1 = clock w
          /\ files w1 !! last_id_file self = files w !! last_id_file self)
    as [Hacc [Ht [Hc Hcp]]].
  { unfold w1. destruct (last_id =? 0)%Z; [|auto]. cbn.
    rewrite lookup_insert_eq, lookup_insert_ne by congruence. auto. }
  destruct (for_fold_exact last_id (firstn limit (history channel)) last_id w1 _ Hacc)
    as [w2 [E2 [F2 [T2 [C2 O2]]]]].
  rewrite E2, Hfail. rewrite Hc, Ht in F2.
  exists w2. split; [reflexivity|]. split; [|exact F2].
  rewrite O2 by congruence. exact Hcp.
Qed.

(** X15 ([process_messages]): the text of the output file after a run. When
    the channel is found and the output file exists and is not the
    checkpoint file, the run leaves in it what it held (nothing of it
    when the checkpoint loaded is zero) followed by one line for every
    link of every listed message above the checkpoint, in the order of
    the listing, each line stamped with its own reading of the clock;
    the clock is read once for every link. *)
Theorem process_messages_writes_new_links client channel limit w last_id old :
  get_entity client = Ok (Some channel) ->
  output_file self <> last_id_file self ->
  files w !! output_file self = Some (Regular old) ->
  get_last_message_id self w = (Ok last_id, w) ->
  let links := new_links self last_id (firstn limit (history channel)) in
  exists w',
    process_messages self client limit w = (Ok tt, w')
    /\ files w' !! output_file self
       = Some (Regular ((if (last_id =? 0)%Z then EmptyString else old)
                        ++ link_lines self (clock w) (ticks w) links))
    /\ ticks w' = ticks w + List.length links.
Proof.
  intros Hent Hne Hold Hget links.
  rewrite get_last_message_id_spec in Hget. injection Hget as Hl.
  rewrite process_messages_unfold, Hent. cbv zeta. rewrite Hl.
  set (w1 := if (last_id =? 0)%Z
             then set_files (<[output_file self := Regular EmptyString]> (files w)) w
             else w).
  assert ((if (last_id =? 0)%Z then open_w (output_file self) else ret tt) w
          = (Ok tt, w1)) as ->.
  { unfold w1. destruct (last_id =? 0)%Z; [|reflexivity].
    unfold open_w. now rewrite Hold. }
  assert (files w1 !! output_file self
          = Some (Regular (if (last_id =? 0)%Z then EmptyString else old))
          /\ ticks w1 = ticks w /\ clock w1 = clock w) as [Hacc [Ht Hc]].
  { unfold w1. destruct (last_id =? 0)%Z; [|auto]. cbn.
    now rewrite lookup_insert_eq. }
  destruct (for_fold_exact last_id (firstn limit (history channel)) last_id w1 _ Hacc)
    as [w2 [E2 [F2 [T2 [C2 O2]]]]].
  rewrite E2. rewrite Hc, Ht in F2. rewrite Ht in T2. fold links in F2, T2.
  destruct (snd (iter_messages channel limit)).
  - exists w2. auto.
  - destruct (_ >? _)%Z; [|exists w2; auto].
    eexists. split; [reflexivity|].
    rewrite save_last_message_id_spec. cbn [snd].
    destruct (files w2 !! last_id_file self) as [[d|]|]; cbn;
      try rewrite lookup_insert_ne by congruence; auto.
Qed.

End Output.

(** * The matcher finds matches only *)

Section Soundness.

Variable word : ascii -> bool.
Variable ignorecase : bool.

Lemma star_sound {T : Type} p : forall s prev (k : option ascii -> string -> option T) t,
  Re.star ignorecase p prev s k = Some t ->
  exists prev' s', repeats ignorecase p prev s prev' s' /\ k prev' s' = Some t.
Proof.
  induction s as [|x s IH]; intros prev k t H; cbn [Re.star] in H.
  - exists prev, EmptyString. split; [constructor|exact H].
  - destruct (Re.cls_matches ignorecase p x) eqn:E.
    + destruct (Re.star ignorecase p (Some x) s k) as [t'|] eqn:Es.
      * injection H as <-. destruct (IH _ _ _ Es) as [prev' [s' [R K]]].
        exists prev', s'. split; [now constructor|exact K].
      * exists prev, (String x s). split; [constructor|exact H].
    + exists prev, (String x s). split; [constructor|exact H].
Qed.

(** What the matcher finds is a match. *)
Lemma rmatch_sound {T : Type} r :
  forall prev s g (k : option ascii -> string -> Re.groups -> option T) t,
    Re.rmatch word ignorecase r prev s g k = Some t ->
    exists prev' s' g', matches word ignorecase r prev s g prev' s' g' /\ k prev' s' g' = Some t.
Proof.
  induction r as [|c|p| |r1 IH1 r2 IH2|r IH|p|p|n r IH];
    intros prev s g k t H; cbn [Re.rmatch] in H.
  - exists prev, s, g. split; [constructor|exact H].
  - destruct s as [|x s]; [discriminate|].
    destruct (Re.lit_matches ignorecase c x) eqn:E; [|discriminate].
    exists (Some x), s, g. split; [now constructor|exact H].
  - destruct s as [|x s]; [discriminate|].
    destruct (Re.cls_matches ignorecase p x) eqn:E; [|discriminate].
    exists (Some x), s, g. split; [now constructor|exact H].
  - destruct (Re.at_boundary word prev s) eqn:E; [|discriminate].
    exists prev, s, g. split; [now constructor|exact H].
  - destruct (IH1 _ _ _ _ _ H) as [p1 [s1 [g1 [M1 H1]]]].
    destruct (IH2 _ _ _ _ _ H1) as [p2 [s2 [g2 [M2 H2]]]].
    exists p2, s2, g2. split; [econstructor; eassumption|exact H2].
  - destruct (Re.rmatch word ignorecase r prev s g k) as [t'|] eqn:E.
    + injection H as <-. destruct (IH _ _ _ _ _ E) as [p' [s' [g' [M K]]]].
      exists p', s', g'. split; [now apply matches_opt_some|exact K].
    + exists prev, s, g. split; [apply matches_opt_none|exact H].
  - destruct (star_sound _ _ _ _ _ H) as [p' [s' [R K]]].
    exists p', s', g. split; [now constructor|exact K].
  - destruct s as [|x s]; [discriminate|].
    destruct (Re.cls_matches ignorecase p x) eqn:E; [|discriminate].
    destruct (star_sound _ _ _ _ _ H) as [p' [s' [R K]]].
    exists p', s', g. split; [now constructor|exact K].
  - destruct (IH _ _ _ _ _ H) as [p' [s' [g' [M K]]]].
    exists p', s', ((n, Re.consumed s s') :: g').
    split; [now constructor|exact K].
Qed.

Lemma match_here_sound r prev s rest g :
  Re.match_here word ignorecase r prev s = Some (rest, g) ->
  exists prev', matches word ignorecase r prev s [] prev' rest g.
Proof.
  unfold Re.match_here. intros H.
  destruct (rmatch_sound _ _ _ _ _ _ H) as [p' [s' [g' [M [= <- <-]]]]].
  now exists p'.
Qed.

(** Every element of [findall] is a match that starts somewhere in the
    text. *)
Lemma findall_from_sound r : forall s prev skip g,
  In g (Re.findall_from word ignorecase r prev s skip) ->
  exists before prev0 s0 prev' rest,
    s = before ++ s0 /\ matches word ignorecase r prev0 s0 [] prev' rest g.
Proof.
  induction s as [|c s IH]; intros prev skip g Hin.
  - destruct skip; cbn [Re.findall_from] in Hin; [|destruct Hin].
    destruct (Re.match_here word ignorecase r prev EmptyString) as [[rest g0]|] eqn:E;
      [|destruct Hin].
    destruct Hin as [<-|[]].
    destruct (match_here_sound _ _ _ _ _ E) as [p' M].
    exists EmptyString, prev, EmptyString, p', rest. split; [reflexivity|exact M].
  - assert (forall n, In g (Re.findall_from word ignorecase r (Some c) s n) ->
              exists before prev0 s0 prev' rest,
                String c s = before ++ s0 /\ matches word ignorecase r prev0 s0 [] prev' rest g)
      as Htail.
    { intros n Hn. destruct (IH _ _ _ Hn) as [b [p0 [s0 [p' [rest [Hs M]]]]]].
      exists (String c b), p0, s0, p', rest. split; [now rewrite Hs|exact M]. }
    destruct skip; cbn [Re.findall_from] in Hin; [|now apply (Htail skip)].
    destruct (Re.match_here word ignorecase r prev (String c s)) as [[rest g0]|] eqn:E.
    + destruct Hin as [<-|Hin]; [|now apply (Htail _ Hin)].
      destruct (match_here_sound _ _ _ _ _ E) as [p' M].
      exists EmptyString, prev, (String c s), p', rest. split; [reflexivity|exact M].
    + now apply (Htail _ Hin).
Qed.

Lemma repeats_split p prev s prev' s' :
  repeats ignorecase p prev s prev' s' ->
  exists m, s = m ++ s' /\ all_in (Re.cls_matches ignorecase p) m = true.
Proof.
  induction 1 as [prev s|prev x s prev' s' Hx _ [m [Hs Hm]]].
  - exists EmptyString. split; reflexivity.
  - exists (String x m). split; [now rewrite Hs|]. cbn. now rewrite Hx, Hm.
Qed.

Lemma matches_split r prev s g prev' s' g' :
  matches word ignorecase r prev s g prev' s' g' -> exists m, s = m ++ s'.
Proof.
  induction 1;
    try (exists EmptyString; reflexivity);
    try (eexists (String _ EmptyString); reflexivity).
  - destruct IHmatches1 as [m1 H1]. destruct IHmatches2 as [m2 H2].
    exists (m1 ++ m2). now rewrite H1, H2, append_assoc.
  - assumption.
  - destruct (repeats_split _ _ _ _ _ H) as [m [Hs _]]. now exists m.
  - destruct (repeats_split _ _ _ _ _ H0) as [m [Hs _]].
    exists (String x m). now rewrite Hs.
  - assumption.
Qed.

(** The matches of each form of pattern. *)
Lemma matches_seq_inv r1 r2 prev s g prev' s' g' :
  matches word ignorecase (Re.Seq r1 r2) prev s g prev' s' g' ->
  exists prev1 s1 g1,
    matches word ignorecase r1 prev s g prev1 s1 g1
    /\ matches word ignorecase r2 prev1 s1 g1 prev' s' g'.
Proof. intros H. inversion H; subst. eauto. Qed.

Lemma matches_opt_inv r prev s g prev' s' g' :
  matches word ignorecase (Re.Opt r) prev s g prev' s' g' ->
  matches word ignorecase r prev s g prev' s' g' \/ (prev' = prev /\ s' = s /\ g' = g).
Proof. intros H. inversion H; subst; auto. Qed.

Lemma matches_grp_inv n r prev s g prev' s' g' :
  matches word ignorecase (Re.Grp n r) prev s g prev' s' g' ->
  exists g0, matches word ignorecase r prev s g prev' s' g0 /\ g' = (n, Re.consumed s s') :: g0.
Proof. intros H. inversion H; subst. eauto. Qed.

Lemma matches_lit_inv c prev s g prev' s' g' :
  matches word ignorecase (Re.Lit c) prev s g prev' s' g' ->
  exists x, s = String x s' /\ Re.lit_matches ignorecase c x = true /\ g' = g.
Proof. intros H. inversion H; subst. eauto. Qed.

Lemma matches_eps_inv prev s g prev' s' g' :
  matches word ignorecase Re.Eps prev s g prev' s' g' -> s' = s /\ g' = g.
Proof. intros H. inversion H; subst. auto. Qed.

Lemma matches_star_inv p prev s g prev' s' g' :
  matches word ignorecase (Re.Star p) prev s g prev' s' g' ->
  g' = g
  /\ exists m, s = m ++ s' /\ all_in (Re.cls_matches ignorecase p) m = true.
Proof.
  intros H. inversion H; subst. split; [reflexivity|].
  eapply repeats_split. eassumption.
Qed.

Lemma matches_plus_inv p prev s g prev' s' g' :
  matches word ignorecase (Re.Plus p) prev s g prev' s' g' ->
  g' = g
  /\ exists x m, s = String x m ++ s'
                 /\ all_in (Re.cls_matches ignorecase p) (String x m) = true.
Proof.
  intros H. inversion H; subst. split; [reflexivity|].
  match goal with
  | R : repeats _ _ _ _ _ _ |- _ => destruct (repeats_split _ _ _ _ _ R) as [m [-> Hm]]
  end.
  exists x, m. split; [reflexivity|]. cbn [all_in].
  apply andb_true_iff. split; assumption.
Qed.

End Soundness.

Lemma length_append (a b : string) :
  String.length (a ++ b) = String.length a + String.length b.
Proof.
  induction a as [|c a IH]; [reflexivity|].
  rewrite append_cons. cbn [String.length]. now rewrite IH.
Qed.

Lemma take_append m s : Re.take (String.length m) (m ++ s) = m.
Proof.
  induction m as [|c m IH]; [now destruct s|].
  rewrite append_cons. cbn [String.length Re.take]. now rewrite IH.
Qed.

(** The text that a group captures is what its pattern has consumed. *)
Lemma consumed_append m s : Re.consumed (m ++ s) s = m.
Proof.
  unfold Re.consumed. rewrite length_append.
  replace (String.length m + String.length s - String.length s)
    with (String.length m) by lia.
  apply take_append.
Qed.

(** * The links that the extractor builds *)

Lemma ascii_lower_append a b : ascii_lower (a ++ b) = ascii_lower a ++ ascii_lower b.
Proof.
  induction a as [|c a IH]; [reflexivity|].
  rewrite append_cons. cbn [ascii_lower]. now rewrite IH.
Qed.

Lemma host_class_folded x :
  Re.cls_matches true Telegram.host_class x = true -> Telegram.host_class x = true.
Proof.
  destruct x as [[|] [|] [|] [|] [|] [|] [|] [|]]; vm_compute; congruence.
Qed.

Lemma path_class_folded x :
  Re.cls_matches true Telegram.path_class x = true -> Telegram.path_class x = true.
Proof.
  destruct x as [[|] [|] [|] [|] [|] [|] [|] [|]]; vm_compute; congruence.
Qed.

Lemma all_in_impl (p q : ascii -> bool) s :
  (forall x, p x = true -> q x = true) -> all_in p s = true -> all_in q s = true.
Proof.
  intros Hpq. induction s as [|c s IH]; [reflexivity|].
  cbn [all_in]. intros H. apply andb_true_iff in H as [Hc Hs].
  now rewrite (Hpq c Hc), (IH Hs).
Qed.

Lemma slash_folded x : Re.lit_matches true "/" x = true -> x = "/"%char.
Proof.
  destruct x as [[|] [|] [|] [|] [|] [|] [|] [|]]; vm_compute; congruence.
Qed.

Section Links.

Variable word : ascii -> bool.

(** A literal pattern under [re.IGNORECASE] consumes its text up to the
    case of the letters, and captures nothing. *)
Lemma matches_lits_folded k : forall prev s g prev' s' g',
  matches word true (Re.lits k) prev s g prev' s' g' ->
  g' = g /\ exists m, s = m ++ s' /\ ascii_lower m = ascii_lower k.
Proof.
  induction k as [|c k IH]; intros prev s g prev' s' g' H; cbn [Re.lits] in H.
  - apply matches_eps_inv in H as [-> ->]. split; [reflexivity|].
    exists EmptyString. split; reflexivity.
  - apply matches_seq_inv in H as [p1 [s1 [g1 [H1 H2]]]].
    apply matches_lit_inv in H1 as [x [E1 [Hx E2]]].
    destruct (IH _ _ _ _ _ _ H2) as [E3 [m [E4 Hm]]]. subst.
    split; [reflexivity|]. exists (String x m). split; [reflexivity|].
    cbn [ascii_lower]. rewrite Hm. f_equal.
    unfold Re.lit_matches in Hx. apply Ascii.eqb_eq in Hx. now rewrite Hx.
Qed.

(** The protocol part of the pattern, [http], an optional [s] and [://]. *)
Lemma matches_protocol prev s g prev' s' g' :
  matches word true
    (Re.Seq (Re.lits "http") (Re.Seq (Re.Opt (Re.Lit "s")) (Re.lits "://")))
    prev s g prev' s' g' ->
  g' = g
  /\ exists m, s = m ++ s'
               /\ (ascii_lower m = "http://" \/ ascii_lower m = "https://").
Proof.
  intros H.
  apply matches_seq_inv in H as [p1 [s1 [g1 [H1 H2]]]].
  apply matches_seq_inv in H2 as [p2 [s2 [g2 [H2 H3]]]].
  destruct (matches_lits_folded _ _ _ _ _ _ _ H1) as [E1 [m1 [E2 Hm1]]].
  destruct (matches_lits_folded _ _ _ _ _ _ _ H3) as [E3 [m3 [E4 Hm3]]].
  apply matches_opt_inv in H2 as [H2|[_ [E5 E6]]].
  - apply matches_lit_inv in H2 as [x [E5 [Hx E6]]]. subst.
    split; [reflexivity|]. exists (m1 ++ String x m3).
    split; [now rewrite append_assoc|]. right.
    rewrite ascii_lower_append. cbn [ascii_lower]. rewrite Hm1, Hm3.
    unfold Re.lit_matches in Hx. apply Ascii.eqb_eq in Hx. rewrite <- Hx.
    reflexivity.
  - subst. split; [reflexivity|]. exists (m1 ++ m3).
    split; [now rewrite append_assoc|]. left.
    rewrite ascii_lower_append, Hm1, Hm3. reflexivity.
Qed.

(** Group 2, the host. *)
Lemma matches_host prev s g prev' s' g' :
  matches word true (Re.Grp 2 (Re.Plus Telegram.host_class)) prev s g prev' s' g' ->
  exists host,
    s = host ++ s' /\ host <> EmptyString
    /\ all_in Telegram.host_class host = true
    /\ g' = (2, host) :: g.
Proof.
  intros H. apply matches_grp_inv in H as [g0 [H E1]].
  apply matches_plus_inv in H as [E2 [x [m [E3 Hm]]]]. subst.
  exists (String x m). split; [reflexivity|]. split; [discriminate|]. split.
  - apply (all_in_impl _ _ _ host_class_folded Hm).
  - now rewrite consumed_append.
Qed.

(** Group 3, the path, which may be missing. *)
Lemma matches_path prev s g prev' s' g' :
  matches word true
    (Re.Opt (Re.Grp 3 (Re.Seq (Re.Lit "/") (Re.Star Telegram.path_class))))
    prev s g prev' s' g' ->
  exists path,
    s = path ++ s'
    /\ ((path = EmptyString /\ g' = g)
        \/ ((exists rest, path = String "/" rest
                          /\ all_in Telegram.path_class rest = true)
            /\ g' = (3, path) :: g)).
Proof.
  intros H. apply matches_opt_inv in H as [H|[_ [E1 E2]]].
  - apply matches_grp_inv in H as [g0 [H E1]].
    apply matches_seq_inv in H as [p1 [s1 [g1 [H1 H2]]]].
    apply matches_lit_inv in H1 as [x [E2 [Hx E3]]].
    apply matches_star_inv in H2 as [E4 [m [E5 Hm]]].
    apply slash_folded in Hx. subst.
    exists (String "/" m). split; [reflexivity|]. right. split.
    + exists m. split; [reflexivity|].
      apply (all_in_impl _ _ _ path_class_folded Hm).
    + rewrite <- append_cons. now rewrite consumed_append.
  - subst. exists EmptyString. split; [reflexivity|]. now left.
Qed.

(** A match of the pattern of the extractor, part by part. *)
Lemma matches_onion_pattern prev s prev' rest g :
  matches word true Telegram.onion_pattern prev s [] prev' rest g ->
  exists found host dot path,
    s = found ++ host ++ dot ++ path ++ rest
    /\ Re.group 1 g = found /\ Re.group 2 g = host /\ Re.group 3 g = path
    /\ (found = EmptyString \/ ascii_lower found = "http://"
        \/ ascii_lower found = "https://")
    /\ host <> EmptyString
    /\ all_in Telegram.host_class host = true
    /\ ascii_lower dot = ".onion"
    /\ (path = EmptyString
        \/ exists tail, path = String "/" tail
                        /\ all_in Telegram.path_class tail = true).
Proof.
  unfold Telegram.onion_pattern. intros H.
  apply matches_seq_inv in H as [p1 [s1 [g1 [H1 H]]]].
  apply matches_seq_inv in H as [p2 [s2 [g2 [H2 H]]]].
  apply matches_seq_inv in H as [p3 [s3 [g3 [H3 H4]]]].
  destruct (matches_host _ _ _ _ _ _ H2) as [host [E1 [Hne [Hhost E2]]]].
  destruct (matches_lits_folded _ _ _ _ _ _ _ H3) as [E3 [dot [E4 Hdot]]].
  destruct (matches_path _ _ _ _ _ _ H4) as [path [E5 Hpath]].
  apply matches_opt_inv in H1 as [H1|[_ [E6 E7]]].
  - apply matches_grp_inv in H1 as [g0 [H1 E6]].
    destruct (matches_protocol _ _ _ _ _ _ H1) as [E7 [found [E8 Hfound]]].
    exists found, host, dot, path.
    destruct Hpath as [[E9 E10]|[Ht E10]]; subst; rewrite consumed_append; cbn;
      repeat split; auto.
  - exists EmptyString, host, dot, path.
    destruct Hpath as [[E9 E10]|[Ht E10]]; subst; cbn; repeat split; auto.
Qed.

End Links.

Section Form.

Import Telegram.

Variable self : TelegramOnionExtractor.

(** The loop of [extract_onion_links] is a map over the matches. *)
Lemma extract_onion_links_map text :
  extract_onion_links self (Some text)
  = List.map
      (fun m =>
         let '(m0, m1, m2) := m in
         (if is_empty m0 then "http://" else m0) ++ m1 ++ ".onion" ++ m2)
      (onion_findall text).
Proof.
  unfold extract_onion_links.
  destruct text as [|c text]; [reflexivity|]. cbn [is_empty].
  rewrite fold_left_append_map
    with (g := fun m : string * string * string =>
                 let '(m0, m1, m2) := m in
                 (if is_empty m0 then "http://" else m0) ++ m1 ++ ".onion" ++ m2).
  - reflexivity.
  - intros acc [[m0 m1] m2]. do 3 f_equal.
    rewrite append_assoc. destruct m2; reflexivity.
Qed.

(** X16 ([extract_onion_links], [onion_pattern]), for a text whose
    characters are all below U+0100, which is what a [string] holds:
    every link returned is made of a protocol, a host, the text .onion
    and a path. The protocol is "http://" or "https://" up to the case of
    its letters; the host is not empty and made of ASCII letters, digits,
    hyphens and dots; the path is empty or a slash followed by characters
    of the path class; host and path are taken from the text, where they
    stand next to each other around a suffix that is .onion up to the
    case of its letters.

    The bound on the characters is needed. Under [re.IGNORECASE] the
    letters s, k and i of the pattern and of its classes also match
    U+017F, U+212A, U+0130 and U+0131, none of which is below U+0100: on
    a text with one of these the source can return a protocol or a host
    that is not of this form, and the theorem says nothing of such a
    text. Below U+0100 only an ASCII letter matches an ASCII letter,
    which is how [Re.lit_matches] and [Re.cls_matches] fold the case. *)
Theorem extract_onion_links_form content link :
  In link (extract_onion_links self content) ->
  exists protocol host path,
    link = protocol ++ host ++ ".onion" ++ path
    /\ (ascii_lower protocol = "http://" \/ ascii_lower protocol = "https://")
    /\ host <> EmptyString
    /\ all_in host_class host = true
    /\ (path = EmptyString
        \/ exists tail, path = String "/" tail /\ all_in path_class tail = true)
    /\ exists before dot after,
         content = Some (before ++ host ++ dot ++ path ++ after)
         /\ ascii_lower dot = ".onion".
Proof.
  intros Hin. destruct content as [text|]; [|destruct Hin].
  rewrite extract_onion_links_map in Hin.
  apply in_map_iff in Hin as [[[m0 m1] m2] [Hlink Hm]].
  unfold onion_findall, Re.findall3 in Hm.
  apply in_map_iff in Hm as [g [Hg Hfind]].
  injection Hg as H0 H1 H2.
  destruct (findall_from_sound _ _ _ _ _ _ _ Hfind)
    as [before [prev0 [s0 [prev' [rest [Htext Hmatch]]]]]].
  destruct (matches_onion_pattern _ _ _ _ _ _ Hmatch)
    as [found [host [dot [path [Hs0 [G1 [G2 [G3 [Hfound [Hne [Hhost [Hdot Hpath]]]]]]]]]]]].
  assert (m0 = found) as -> by congruence.
  assert (m1 = host) as -> by congruence.
  assert (m2 = path) as -> by congruence.
  exists (if is_empty found then "http://" else found), host, path.
  split; [now rewrite <- Hlink|]. split.
  { destruct Hfound as [->|[Hf|Hf]]; [now left| |];
      (destruct found; [cbn in Hf; discriminate|]); cbn [is_empty]; auto. }
  split; [exact Hne|]. split; [exact Hhost|]. split; [exact Hpath|].
  exists (before ++ found), dot, rest. split; [|exact Hdot].
  rewrite Htext, Hs0. now rewrite append_assoc.
Qed.

End Form.

(** * Further concrete runs *)

Lemma check_keywords_only_occurring_witness :
  In "t.me"
    (Pastebin.check_keywords ascii_lower ascii_word scenario_crawler (Some scenario_body))
  /\ In "t.me" (Pastebin.keywords scenario_crawler)
  /\ exists text,
       Some scenario_body = Some text /\ text <> EmptyString
       /\ is_substring (ascii_lower "t.me") (ascii_lower text) = true.
Proof.
  assert (In "t.me"
            (Pastebin.check_keywords ascii_lower ascii_word scenario_crawler
               (Some scenario_body))) as H by (right; left; reflexivity).
  split; [exact H|].
  exact (check_keywords_only_occurring ascii_lower ascii_word scenario_crawler
           (Some scenario_body) "t.me" H).
Defined.

Lemma check_keywords_ignores_case_witness :
  Pastebin.check_keywords ascii_lower ascii_word scenario_crawler
    (Some (ascii_lower scenario_body))
  = Pastebin.check_keywords ascii_lower ascii_word scenario_crawler (Some scenario_body).
Proof.
  exact (check_keywords_ignores_case ascii_lower ascii_word scenario_crawler
           scenario_body ascii_lower_idem ascii_lower_is_empty).
Defined.

Lemma get_archive_paste_ids_witness :
  Pastebin.archive busy_site
  = Ok [Some "/Ab12Cd34"; None; Some "https://pastebin.com/tools"; Some "/Zz99Yy88"]
  /\ exists paste_ids,
       Pastebin.get_archive_paste_ids busy_site crawled_world = (Ok paste_ids, crawled_world)
       /\ (forall id, In id paste_ids <->
             exists h,
               In (Some h)
                 [Some "/Ab12Cd34"; None; Some "https://pastebin.com/tools";
                  Some "/Zz99Yy88"]
               /\ startswith_char "/" h = true /\ id = lstrip_char "/" h)
       /\ (forall id, In id paste_ids -> startswith_char "/" id = false)
       /\ List.length paste_ids
          <= List.length
               [Some "/Ab12Cd34"; None; Some "https://pastebin.com/tools";
                Some "/Zz99Yy88"].
Proof.
  split; [reflexivity|].
  exact (get_archive_paste_ids_from_links busy_site _ crawled_world eq_refl).
Defined.

Lemma process_paste_witness :
  Pastebin.raw busy_site "Ab12Cd34" = Ok scenario_body
  /\ exists result w',
       Pastebin.process_paste ascii_lower ascii_word scenario_crawler busy_site
         "Ab12Cd34" crawled_world = (Ok result, w')
       /\ files w' = files crawled_world
       /\ (result <> None <->
           scenario_body <> EmptyString
           /\ exists keyword,
                In keyword (Pastebin.keywords scenario_crawler)
                /\ is_substring (ascii_lower keyword) (ascii_lower scenario_body) = true)
       /\ forall record, result = Some record ->
            In ("paste_id", JStr "Ab12Cd34") record
            /\ In ("url", JStr (Pastebin.raw_paste_url "Ab12Cd34")) record
            /\ In ("keywords_found",
                   JList (List.filter
                            (fun k => is_substring (ascii_lower k)
                                        (ascii_lower scenario_body))
                            (Pastebin.keywords scenario_crawler))) record
            /\ In ("status", JStr "pending") record.
Proof.
  split; [reflexivity|].
  exact (process_paste_reports_matches ascii_lower ascii_word scenario_crawler
           busy_site "Ab12Cd34" scenario_body crawled_world eq_refl).
Defined.

Lemma busy_site_requests :
  Forall (fun i => (exists text, Pastebin.raw busy_site i = Ok text)
                   \/ Pastebin.raw busy_site i = Raise RequestException)
    ["Ab12Cd34"; "Zz99Yy88"].
Proof.
  constructor; [left; eexists; reflexivity|].
  constructor; [right; reflexivity|constructor].
Qed.

Lemma run_writes_the_matches_witness :
  Pastebin.get_archive_paste_ids busy_site crawled_world
  = (Ok ["Ab12Cd34"; "Zz99Yy88"], crawled_world)
  /\ files crawled_world !! Pastebin.output_file scenario_crawler <> Some Denied
  /\ exists results w1 w',
       map_io (Pastebin.process_paste ascii_lower ascii_word scenario_crawler busy_site)
         ["Ab12Cd34"; "Zz99Yy88"]
         (emptied (Pastebin.output_file scenario_crawler) crawled_world)
       = (Ok results, w1)
       /\ Pastebin.run ascii_lower ascii_word scenario_crawler busy_site crawled_world
          = (Ok tt, w')
       /\ files w' !! Pastebin.output_file scenario_crawler
          = Some (Regular (join_lines (List.map record_line results)))
       /\ forall p, p <> Pastebin.output_file scenario_crawler ->
                    files w' !! p = files crawled_world !! p.
Proof.
  assert (files crawled_world !! Pastebin.output_file scenario_crawler <> Some Denied)
    as Hnd by (vm_compute; discriminate).
  assert (["Ab12Cd34"; "Zz99Yy88"] <> @nil string) as Hne by discriminate.
  split; [reflexivity|]. split; [exact Hnd|].
  exact (run_writes_the_matches ascii_lower ascii_word scenario_crawler busy_site
           crawled_world ["Ab12Cd34"; "Zz99Yy88"] eq_refl Hne Hnd busy_site_requests).
Defined.

Example run_busy_site :
  files (snd (Pastebin.run ascii_lower ascii_word scenario_crawler busy_site
                crawled_world)) !! "keyword_matches.jsonl"
  = Some (Regular
            (json_dumps
               [("source", JStr "pastebin");
                ("context",
                 JStr "Found crypto-related content in Pastebin paste ID Ab12Cd34");
                ("paste_id", JStr "Ab12Cd34");
                ("url", JStr "https://pastebin.com/raw/Ab12Cd34");
                ("discovered_at", JStr "2024-01-01T00:00:00Z");
                ("keywords_found", JList ["bitcoin"; "t.me"]);
                ("status", JStr "pending")] ++ newline)).
Proof. vm_compute. reflexivity. Qed.

Lemma run_raises_without_output_witness :
  Pastebin.get_archive_paste_ids busy_site locked_world
  = (Ok ["Ab12Cd34"; "Zz99Yy88"], locked_world)
  /\ files locked_world !! Pastebin.output_file scenario_crawler = Some Denied
  /\ Pastebin.run ascii_lower ascii_word scenario_crawler busy_site locked_world
     = (Raise OSError, locked_world).
Proof.
  assert (files locked_world !! Pastebin.output_file scenario_crawler = Some Denied)
    as Hd by reflexivity.
  assert (["Ab12Cd34"; "Zz99Yy88"] <> @nil string) as Hne by discriminate.
  split; [reflexivity|]. split; [exact Hd|].
  exact (run_raises_without_output ascii_lower ascii_word scenario_crawler busy_site
           locked_world ["Ab12Cd34"; "Zz99Yy88"] eq_refl Hne Hd).
Defined.

Lemma save_result_one_line_witness :
  files crawled_world !! Pastebin.output_file scenario_crawler
  = Some (Regular ("an earlier record" ++ newline))
  /\ exists record w',
       Pastebin.save_result scenario_crawler
         (Some [("source", JStr "pastebin"); ("paste_id", JStr ("a" ++ newline ++ "b"))])
         crawled_world = (Ok tt, w')
       /\ files w' !! Pastebin.output_file scenario_crawler
          = Some (Regular (("an earlier record" ++ newline) ++ record ++ newline))
       /\ all_printable record = true.
Proof.
  split; [reflexivity|].
  exact (save_result_appends_one_line scenario_crawler _ _ crawled_world _ eq_refl).
Defined.

Lemma save_link_one_line_witness :
  files later_world !! Telegram.output_file Telegram.init
  = Some (Regular ("an earlier record" ++ newline))
  /\ exists record w',
       Telegram.save_link Telegram.init ("http://abc.onion/" ++ newline) later_world
       = (Ok tt, w')
       /\ files w' !! Telegram.output_file Telegram.init
          = Some (Regular (("an earlier record" ++ newline) ++ record ++ newline))
       /\ all_printable record = true
       /\ ticks w' = S (ticks later_world).
Proof.
  split; [reflexivity|].
  exact (save_link_appends_one_line Telegram.init _ later_world _ eq_refl).
Defined.

Lemma get_last_message_id_blanks_witness :
  all_space "  " = true /\ all_space newline = true
  /\ files hand_written_world !! Telegram.last_id_file Telegram.init
     = Some (Regular ("  " ++ str_of_int 42 ++ newline))
  /\ Telegram.get_last_message_id Telegram.init hand_written_world
     = (Ok 42%Z, hand_written_world).
Proof.
  split; [reflexivity|]. split; [reflexivity|]. split; [reflexivity|].
  exact (get_last_message_id_ignores_blanks Telegram.init hand_written_world 42
           "  " newline eq_refl eq_refl eq_refl).
Defined.

Lemma process_messages_skips_witness :
  Telegram.get_last_message_id Telegram.init later_world = (Ok 5%Z, later_world)
  /\ Forall (fun m => (Telegram.id m <= 5)%Z)
       (firstn Telegram.default_limit (Telegram.history scenario_channel))
  /\ Telegram.process_messages Telegram.init scenario_client Telegram.default_limit
       later_world = (Ok tt, later_world).
Proof.
  assert (Forall (fun m => (Telegram.id m <= 5)%Z)
            (firstn Telegram.default_limit (Telegram.history scenario_channel))) as Hall.
  { cbn. repeat constructor; cbn; lia. }
  assert (5%Z <> 0%Z) as H5 by discriminate.
  split; [reflexivity|]. split; [exact Hall|].
  exact (process_messages_skips_processed Telegram.init scenario_client
           scenario_channel Telegram.default_limit later_world 5 eq_refl eq_refl H5 Hall).
Defined.

Lemma process_messages_rerun_witness :
  Forall (fun m => (0 < Telegram.id m)%Z)
    (firstn Telegram.default_limit (Telegram.history scenario_channel))
  /\ exists w1,
       Telegram.process_messages Telegram.init scenario_client Telegram.default_limit
         (world_of ∅) = (Ok tt, w1)
       /\ Telegram.process_messages Telegram.init scenario_client
            Telegram.default_limit w1 = (Ok tt, w1).
Proof.
  assert (Forall (fun m => (0 < Telegram.id m)%Z)
            (firstn Telegram.default_limit (Telegram.history scenario_channel))) as Hpos.
  { cbn. repeat constructor; cbn; lia. }
  assert (files (world_of ∅) !! Telegram.output_file Telegram.init <> Some Denied)
    as H1 by (vm_compute; discriminate).
  assert (files (world_of ∅) !! Telegram.last_id_file Telegram.init <> Some Denied)
    as H2 by (vm_compute; discriminate).
  split; [exact Hpos|].
  exact (process_messages_rerun_changes_nothing Telegram.init scenario_client
           scenario_channel Telegram.default_limit (world_of ∅)
           eq_refl eq_refl H1 H2 Hpos).
Defined.

Lemma process_messages_drops_links_witness :
  files mute_world !! Telegram.output_file Telegram.init = Some Denied
  /\ Telegram.get_last_message_id Telegram.init mute_world = (Ok 1%Z, mute_world)
  /\ exists w',
       Telegram.process_messages Telegram.init fresh_client Telegram.default_limit
         mute_world = (Ok tt, w')
       /\ files w' !! Telegram.output_file Telegram.init = Some Denied
       /\ Telegram.get_last_message_id Telegram.init w'
          = (Ok (fold_left Z.max
                   (List.map Telegram.id
                      (firstn Telegram.default_limit (Telegram.history fresh_channel)))
                   1%Z), w').
Proof.
  assert (files mute_world !! Telegram.last_id_file Telegram.init <> Some Denied)
    as H2 by (vm_compute; discriminate).
  assert (1%Z <> 0%Z) as H1 by discriminate.
  split; [reflexivity|]. split; [reflexivity|].
  exact (process_messages_drops_links_without_output Telegram.init fresh_client
           fresh_channel Telegram.default_limit mute_world 1
           eq_refl eq_refl eq_refl H2 eq_refl H1).
Defined.

Lemma process_messages_writes_witness :
  Telegram.output_file Telegram.init <> Telegram.last_id_file Telegram.init
  /\ Telegram.get_last_message_id Telegram.init later_world = (Ok 5%Z, later_world)
  /\ new_links Telegram.init 5
       (firstn Telegram.default_limit (Telegram.history fresh_channel))
     = ["http://abc123xyz.onion/page?x=1"; "http://def456.onion"]
  /\ exists w',
       Telegram.process_messages Telegram.init fresh_client Telegram.default_limit
         later_world = (Ok tt, w')
       /\ files w' !! Telegram.output_file Telegram.init
          = Some (Regular
                    ((if (5 =? 0)%Z then EmptyString
                      else "an earlier record" ++ newline)
                     ++ link_lines Telegram.init (clock later_world) (ticks later_world)
                          (new_links Telegram.init 5
                             (firstn Telegram.default_limit
                                (Telegram.history fresh_channel)))))
       /\ ticks w'
          = ticks later_world
            + List.length
                (new_links Telegram.init 5
                   (firstn Telegram.default_limit (Telegram.history fresh_channel))).
Proof.
  assert (Telegram.output_file Telegram.init <> Telegram.last_id_file Telegram.init)
    as Hne by discriminate.
  split; [exact Hne|]. split; [reflexivity|]. split; [reflexivity|].
  exact (process_messages_writes_new_links Telegram.init fresh_client fresh_channel
           Telegram.default_limit later_world 5 _ eq_refl Hne eq_refl eq_refl).
Defined.

Lemma extract_onion_links_form_witness :
  In "http://def456.onion"
    (Telegram.extract_onion_links Telegram.init
       (Some "new: http://abc123xyz.onion/page?x=1 and def456.onion"))
  /\ exists protocol host path,
       "http://def456.onion" = protocol ++ host ++ ".onion" ++ path
       /\ (ascii_lower protocol = "http://" \/ ascii_lower protocol = "https://")
       /\ host <> EmptyString
       /\ all_in Telegram.host_class host = true
       /\ (path = EmptyString
           \/ exists tail, path = String "/" tail
                           /\ all_in Telegram.path_class tail = true)
       /\ exists before dot after,
            Some "new: http://abc123xyz.onion/page?x=1 and def456.onion"
            = Some (before ++ host ++ dot ++ path ++ after)
            /\ ascii_lower dot = ".onion".
Proof.
  assert (In "http://def456.onion"
            (Telegram.extract_onion_links Telegram.init
               (Some "new: http://abc123xyz.onion/page?x=1 and def456.onion"))) as H
    by (right; left; reflexivity).
  split; [exact H|].
  exact (extract_onion_links_form Telegram.init _ _ H).
Defined.

(** * Listings that fail *)

Section Listings.

Variable lower : string -> string.
Variable word : ascii -> bool.

Import Telegram.

(** C5 (as amended): when the archive request raises or yields no
    identifier, the crawler's [run] changes nothing. When the channel
    lookup raises or returns nothing, [process_messages] changes nothing.
    When the channel is found and the listing yields no message, whether
    it then ends or raises, nothing is changed if the checkpoint loaded
    is not 0; if it is 0, the output file has been emptied before the
    listing, and nothing else is changed. When the listing yields no
    message or raises, the checkpoint file, a path other than the output
    file, is left as it was. When the listing raises after it has yielded
    messages, these have been processed all the same: the output file
    holds what it held (nothing of it if the checkpoint loaded is 0)
    followed by one line for every link of the yielded messages above the
    checkpoint, so that it is as it was only if these messages hold no
    link; the checkpoint is not advanced. *)
Theorem failed_listing_effects :
  (forall (self : Pastebin.PastebinCrawler) site w,
     Pastebin.archive site = Raise RequestException
     \/ Pastebin.get_archive_paste_ids site w = (Ok [], w) ->
     Pastebin.run lower word self site w = (Ok tt, w))
  /\ (forall (self : TelegramOnionExtractor) client limit w,
        (exists e, get_entity client = Raise e) \/ get_entity client = Ok None ->
        process_messages self client limit w = (Ok tt, w))
  /\ (forall (self : TelegramOnionExtractor) client channel limit w last_id,
        get_entity client = Ok (Some channel) ->
        firstn limit (history channel) = [] ->
        get_last_message_id self w = (Ok last_id, w) ->
        last_id <> 0%Z ->
        process_messages self client limit w = (Ok tt, w))
  /\ (forall (self : TelegramOnionExtractor) client channel limit w,
        get_entity client = Ok (Some channel) ->
        firstn limit (history channel) = [] ->
        get_last_message_id self w = (Ok 0%Z, w) ->
        files w !! output_file self <> Some Denied ->
        process_messages self client limit w = (Ok tt, emptied (output_file self) w))
  /\ (forall (self : TelegramOnionExtractor) client channel limit w,
        get_entity client = Ok (Some channel) ->
        firstn limit (history channel) = []
        \/ (exists e, snd (iter_messages channel limit) = Some e) ->
        output_file self <> last_id_file self ->
        exists w',
          process_messages self client limit w = (Ok tt, w')
          /\ files w' !! last_id_file self = files w !! last_id_file self)
  /\ (forall (self : TelegramOnionExtractor) client channel limit w last_id old e,
        get_entity client = Ok (Some channel) ->
        snd (iter_messages channel limit) = Some e ->
        output_file self <> last_id_file self ->
        files w !! output_file self = Some (Regular old) ->
        get_last_message_id self w = (Ok last_id, w) ->
        exists w',
          process_messages self client limit w = (Ok tt, w')
          /\ files w' !! last_id_file self = files w !! last_id_file self
          /\ files w' !! output_file self
             = Some (Regular
                       ((if (last_id =? 0)%Z then EmptyString else old)
                        ++ link_lines self (clock w) (ticks w)
                             (new_links self last_id
                                (firstn limit (history channel)))))).
Proof.
  split; [|split; [|split; [|split; [|split]]]].
  - intros self site w [H|H]; apply pastebin_run_no_ids;
      [now apply get_archive_paste_ids_failed | exact H].
  - intros self client limit w H.
    destruct (process_messages_shape self client limit w) as [w' [Hrun Hshape]].
    rewrite Hrun. destruct H as [[e H]|H]; rewrite H in Hshape; now subst w'.
  - intros self client channel limit w last_id Hent Hnil Hget H0.
    rewrite get_last_message_id_spec in Hget. injection Hget as Hlast.
    destruct (process_messages_nothing_listed self client channel limit w Hent Hnil)
      as [w' [Hrun [->| ->]]]; rewrite Hrun; [reflexivity|].
    unfold before_loop. rewrite Hlast. now destruct (Z.eqb_spec last_id 0).
  - intros self client channel limit w Hent Hnil Hget Hnd.
    rewrite get_last_message_id_spec in Hget. injection Hget as Hlast.
    rewrite process_messages_unfold, Hent. cbv zeta. rewrite Hlast. cbn [Z.eqb].
    destruct (open_w_emptied _ w Hnd) as [-> _].
    rewrite Hnil. cbn [for_fold]. unfold ret.
    rewrite Z.gtb_ltb, Z.ltb_irrefl.
    now destruct (snd (iter_messages channel limit)).
  - intros self client channel limit w Hent [Hnil|[e Hfail]] Hne.
    + destruct (process_messages_nothing_listed self client channel limit w Hent Hnil)
        as [w' [Hrun [->| ->]]];
        (eexists; split; [exact Hrun|]; try reflexivity;
         apply before_loop_other; congruence).
    + now apply (process_messages_failed_listing self client channel limit w e).
  - intros self client channel limit w last_id old e.
    apply process_messages_raising_listing.
Qed.

End Listings.

(** The listing of [flooded_client] raises after one message: its link is
    in the output file, after what the file held, and the checkpoint is
    the old one. *)
Example raising_listing_scenario :
  let w' := snd (Telegram.process_messages Telegram.init flooded_client
                   Telegram.default_limit later_world) in
  files w' !! "onion_links.jsonl"
  = Some (Regular
            (("an earlier record" ++ newline)
             ++ link_record Telegram.init "http://abc123xyz.onion/page?x=1"
                  "2024-01-01T00:00:00Z" ++ newline))
  /\ files w' !! "last_message_id.txt" = Some (Regular "5").
Proof. vm_compute. split; reflexivity. Qed.

Lemma failed_listing_witness :
  Pastebin.archive failing_site = Raise RequestException
  /\ Pastebin.run ascii_lower ascii_word scenario_crawler failing_site crawled_world
     = (Ok tt, crawled_world)
  /\ Telegram.process_messages Telegram.init empty_client Telegram.default_limit
       later_world
     = (Ok tt, later_world)
  /\ snd (Telegram.iter_messages flooded_channel Telegram.default_limit)
     = Some (FloodWaitError 30)
  /\ exists w',
       Telegram.process_messages Telegram.init flooded_client Telegram.default_limit
         later_world = (Ok tt, w')
       /\ files w' !! Telegram.last_id_file Telegram.init
          = files later_world !! Telegram.last_id_file Telegram.init
       /\ files w' !! Telegram.output_file Telegram.init
          = Some (Regular
                    ((if (5 =? 0)%Z then EmptyString
                      else "an earlier record" ++ newline)
                     ++ link_lines Telegram.init (clock later_world)
                          (ticks later_world)
                          (new_links Telegram.init 5
                             (firstn Telegram.default_limit
                                (Telegram.history flooded_channel))))).
Proof.
  pose proof (failed_listing_effects ascii_lower ascii_word)
    as [Hcrawl [_ [Hnone [_ [_ Hraise]]]]].
  assert (Telegram.get_last_message_id Telegram.init later_world
          = (Ok 5%Z, later_world)) as Hget by reflexivity.
  assert (5%Z <> 0%Z) as H5 by discriminate.
  assert (Telegram.output_file Telegram.init <> Telegram.last_id_file Telegram.init)
    as Hne by discriminate.
  split; [reflexivity|]. split; [|split; [|split; [reflexivity|]]].
  - exact (Hcrawl scenario_crawler failing_site crawled_world (or_introl eq_refl)).
  - exact (Hnone Telegram.init empty_client _ Telegram.default_limit later_world 5%Z
             eq_refl eq_refl Hget H5).
  - exact (Hraise Telegram.init flooded_client flooded_channel Telegram.default_limit
             later_world 5%Z _ (FloodWaitError 30) eq_refl eq_refl Hne eq_refl Hget).
Defined.

(** The session of [run]: a constructor that raises shows as
    [AttributeError], a disconnection that raises shows as itself, and
    in that case the run has stored its checkpoint before. *)
Example run_session_scenario :
  fst (Telegram.run Telegram.init unbuilt_client (world_of ∅)) = Raise AttributeError
  /\ files (snd (Telegram.run Telegram.init unbuilt_client (world_of ∅)))
     !! "last_message_id.txt" = None
  /\ fst (Telegram.run Telegram.init unclosed_client (world_of ∅)) = Raise OSError
  /\ files (snd (Telegram.run Telegram.init unclosed_client (world_of ∅)))
     !! "last_message_id.txt" = Some (Regular "3").
Proof. vm_compute. repeat split. Qed.
